(** * Focus_Area: the rectangle editor and its opacity state machine

    A shallow embedding of [focus_area.py]: the class [FocusArea] (hit
    test, move and resize of one cut-out rectangle) and the parts of
    [Focus_AreaWindow] that own the draw gesture, the opacity and
    visibility flags and the configuration file.

    Numbers.  Tk delivers pointer events with integer coordinates
    ([event.x], [event.y]: [Z]).  Canvas coordinates and opacities are
    Python floats; they are modelled as exact rationals ([Q]), so the
    literals [0.382], [0.3], [0.55] and [0.01] are the fractions they
    denote and equality of computed coordinates is [Qeq] ([==]).  The
    rationals agree with binary64 on whole numbers of pixels, which is
    what pointer gestures produce; on fractional values ([0.382 * height],
    opacities stepped by [0.01], coordinates typed into a configuration
    file) the program rounds, so a property that states [==] of such
    values holds in the program within floating tolerance only.
    Properties that need exact agreement assume whole-number coordinates
    ([whole_rect], [canvas_rect]). *)

From Stdlib Require Import ZArith QArith Qabs Bool List String Ascii Lia Lqa.
From Stdlib Require Import PrimFloat.
Import ListNotations.
Open Scope Q_scope.
Set Warnings "-register-all".
Set Warnings "-inexact-float".

(** ** Python helpers *)

Definition Qlt_bool (a b : Q) : bool := negb (Qle_bool b a).

(** [min(a, b)] and [max(a, b)] of Python: the first argument wins a tie. *)
Definition py_min (a b : Q) : Q := if Qlt_bool b a then b else a.
Definition py_max (a b : Q) : Q := if Qlt_bool a b then b else a.

(** [needle in s] on strings: substring test. *)
Fixpoint str_in (needle s : string) : bool :=
  if String.prefix needle s then true
  else match s with
       | EmptyString => false
       | String _ s' => str_in needle s'
       end.

(** ** class FocusArea *)

(** The four numbers [canvas.coords(item)] returns for a rectangle or an
    oval item: [x1, y1, x2, y2]. *)
Record Coords := mkCoords { cx1 : Q; cy1 : Q; cx2 : Q; cy2 : Q }.

Definition coords_eq (a b : Coords) : Prop :=
  cx1 a == cx1 b /\ cy1 a == cy1 b /\ cx2 a == cx2 b /\ cy2 a == cy2 b.

Definition MIN_SIZE : Q := 10.

(** [self.move_handle_size] and [self.resize_handle_size] are assigned once,
    in [__init__], to the same literals for every instance. *)
Definition move_handle_size : Q := 8.
Definition resize_handle_size : Q := 10.
Definition move_handle_buffer : Q := 4.

(** The literal [0.382]. *)
Definition golden : Q := 382 # 1000.

(** One [FocusArea] object.  The two canvas items it owns (the rectangle
    [rect_id] and the oval [move_handle_id]) are kept with it: [rect] and
    [handle] are what [canvas.coords] returns for them.  Both items live
    as long as the object is in the window's list, so the guards
    [if not coords or len(coords) < 4] never fire and are left out. *)
Record FocusArea := mkFocusArea {
  rect_id : nat;
  move_handle_id : nat;
  start_x : Q;
  start_y : Q;
  rect : Coords;
  handle : Coords;
  drag_start_x : Z;
  drag_start_y : Z;
  is_dragging : bool;
  resize_mode : option string
}.

Definition set_rect (c : Coords) (fa : FocusArea) : FocusArea :=
  mkFocusArea (rect_id fa) (move_handle_id fa) (start_x fa) (start_y fa)
    c (handle fa) (drag_start_x fa) (drag_start_y fa)
    (is_dragging fa) (resize_mode fa).

Definition set_handle (c : Coords) (fa : FocusArea) : FocusArea :=
  mkFocusArea (rect_id fa) (move_handle_id fa) (start_x fa) (start_y fa)
    (rect fa) c (drag_start_x fa) (drag_start_y fa)
    (is_dragging fa) (resize_mode fa).

Definition set_drag_start (x y : Z) (fa : FocusArea) : FocusArea :=
  mkFocusArea (rect_id fa) (move_handle_id fa) (start_x fa) (start_y fa)
    (rect fa) (handle fa) x y (is_dragging fa) (resize_mode fa).

Definition set_dragging (b : bool) (m : option string) (fa : FocusArea)
  : FocusArea :=
  mkFocusArea (rect_id fa) (move_handle_id fa) (start_x fa) (start_y fa)
    (rect fa) (handle fa) (drag_start_x fa) (drag_start_y fa) b m.

(** The oval drawn around a handle centre. *)
Definition handle_oval (hx hy : Q) : Coords :=
  mkCoords (hx - move_handle_size) (hy - move_handle_size)
           (hx + move_handle_size) (hy + move_handle_size).

(** Centre of an oval item, from its bounding box. *)
Definition center_x (c : Coords) : Q := (cx1 c + cx2 c) / 2.
Definition center_y (c : Coords) : Q := (cy1 c + cy2 c) / 2.

(** [canvas.move(item, dx, dy)]: an exact translation here; Tk adds the
    offsets in binary64, which is exact on whole numbers. *)
Definition canvas_move (c : Coords) (dx dy : Z) : Coords :=
  mkCoords (cx1 c + inject_Z dx) (cy1 c + inject_Z dy)
           (cx2 c + inject_Z dx) (cy2 c + inject_Z dy).

(** [FocusArea.__init__]; [rid] and [hid] are the item ids the canvas hands
    out for the rectangle and for the oval.  The corners are kept as
    given; Tk stores a rectangle item with its corners ordered, which is
    the same whenever [width] and [height] are not negative. *)
Definition FocusArea_init (rid hid : nat) (x y width height : Q) : FocusArea :=
  let handle_x := x in
  let handle_y := y + height * golden in
  mkFocusArea rid hid x y
    (mkCoords x y (x + width) (y + height))
    (handle_oval handle_x handle_y)
    0%Z 0%Z false None.

(** [FocusArea.get_resize_mode]. *)
Definition get_resize_mode (fa : FocusArea) (event_x event_y : Q)
  : option string :=
  let '(mkCoords x1 y1 x2 y2) := rect fa in
  let height := y2 - y1 in
  let handle_y := y1 + height * golden in
  if Qlt_bool (Qabs (event_x - x1)) (resize_handle_size + 5)
     && (Qle_bool (handle_y - move_handle_size - move_handle_buffer) event_y
         && Qle_bool event_y (handle_y + move_handle_size + move_handle_buffer))
  then Some "move"%string
  else
    let handle := resize_handle_size in
    let near_left := Qlt_bool (Qabs (event_x - x1)) handle in
    let near_right := Qlt_bool (Qabs (event_x - x2)) handle in
    let near_top := Qlt_bool (Qabs (event_y - y1)) handle in
    let near_bottom := Qlt_bool (Qabs (event_y - y2)) handle in
    if near_top && near_left then Some "nw"%string
    else if near_top && near_right then Some "ne"%string
    else if near_bottom && near_left then Some "sw"%string
    else if near_bottom && near_right then Some "se"%string
    else if near_top then Some "n"%string
    else if near_bottom then Some "s"%string
    else if near_left then Some "w"%string
    else if near_right then Some "e"%string
    else Some "move"%string.

(** [FocusArea.update_handle_position]. *)
Definition update_handle_position (fa : FocusArea) : FocusArea :=
  let '(mkCoords x1 y1 x2 y2) := rect fa in
  let handle_x := x1 in
  let height := y2 - y1 in
  let handle_y := y1 + height * golden in
  set_handle (handle_oval handle_x handle_y) fa.

(** [FocusArea.on_press]. *)
Definition on_press (fa : FocusArea) (ex ey : Z) : FocusArea :=
  let fa := set_drag_start ex ey fa in
  set_dragging true (get_resize_mode fa (inject_Z ex) (inject_Z ey)) fa.

(** Truth value of [self.resize_mode]: [None] and the empty string are
    false. *)
Definition truthy (m : option string) : bool :=
  match m with
  | None => false
  | Some s => negb (String.eqb s "")
  end.

(** [FocusArea.on_drag]. *)
Definition on_drag (fa : FocusArea) (ex ey : Z) : FocusArea :=
  if negb (is_dragging fa) then fa
  else
    let '(mkCoords x1 y1 x2 y2) := rect fa in
    let dx := (ex - drag_start_x fa)%Z in
    let dy := (ey - drag_start_y fa)%Z in
    match resize_mode fa with
    | Some m =>
      if String.eqb m "move" then
        set_drag_start ex ey (set_rect (canvas_move (rect fa) dx dy) fa)
      else if truthy (Some m) then
        let new_y1 := if str_in "n" m then inject_Z ey else y1 in
        let new_y2 := if str_in "s" m then inject_Z ey else y2 in
        let new_x1 := if str_in "w" m then inject_Z ex else x1 in
        let new_x2 := if str_in "e" m then inject_Z ex else x2 in
        if Qle_bool MIN_SIZE (new_x2 - new_x1)
           && Qle_bool MIN_SIZE (new_y2 - new_y1)
        then
          set_drag_start ex ey
            (update_handle_position
               (set_rect (mkCoords new_x1 new_y1 new_x2 new_y2) fa))
        else fa
      else fa
    | None => fa
    end.

(** [FocusArea.on_release]. *)
Definition on_release (fa : FocusArea) : FocusArea :=
  set_dragging false None fa.

(** [FocusArea.on_handle_drag]: the handle moves with the rectangle. *)
Definition on_handle_drag (fa : FocusArea) (ex ey : Z) : FocusArea :=
  if is_dragging fa then
    let dx := (ex - drag_start_x fa)%Z in
    let dy := (ey - drag_start_y fa)%Z in
    set_drag_start ex ey
      (set_handle (canvas_move (handle fa) dx dy)
         (set_rect (canvas_move (rect fa) dx dy) fa))
  else fa.

(** [FocusArea.on_handle_release]. *)
Definition on_handle_release (fa : FocusArea) : FocusArea :=
  set_dragging false None fa.

(** [FocusArea.get_coords]. *)
Definition get_coords (fa : FocusArea) : Coords := rect fa.

(** ** The modes and the resize step, as the specification words them *)

Inductive Mode :=
| MMove | MN | MS | ME | MW | MNE | MNW | MSE | MSW.

Definition mode_name (m : Mode) : string :=
  match m with
  | MMove => "move" | MN => "n" | MS => "s" | ME => "e" | MW => "w"
  | MNE => "ne" | MNW => "nw" | MSE => "se" | MSW => "sw"
  end.

Definition has_n (m : Mode) : bool :=
  match m with MN | MNE | MNW => true | _ => false end.
Definition has_s (m : Mode) : bool :=
  match m with MS | MSE | MSW => true | _ => false end.
Definition has_w (m : Mode) : bool :=
  match m with MW | MNW | MSW => true | _ => false end.
Definition has_e (m : Mode) : bool :=
  match m with ME | MNE | MSE => true | _ => false end.

(** The specification's [resize] before its size test: a mode containing
    "n" sets y1 to the pointer y, "s" sets y2, "w" sets x1, "e" sets x2. *)
Definition spec_resize_edges (m : Mode) (b : Coords) (px py : Z) : Coords :=
  mkCoords (if has_w m then inject_Z px else cx1 b)
           (if has_n m then inject_Z py else cy1 b)
           (if has_e m then inject_Z px else cx2 b)
           (if has_s m then inject_Z py else cy2 b).

Definition width (c : Coords) : Q := cx2 c - cx1 c.
Definition height (c : Coords) : Q := cy2 c - cy1 c.

(** ** JSON values, the configuration file, exceptions *)

(** What [json.load] returns.  An object carries the items of the Python
    dict, in order; Python keeps one item per key. *)
Inductive json :=
| JNull
| JBool (b : bool)
| JNum (q : Q)
| JStr (s : string)
| JArr (l : list json)
| JObj (kv : list (string * json)).

(** The configuration file, seen through [json.load]: either its text is
    not JSON and [json.load] raises, or it parses to a value.  [json.dump]
    writes a text that parses back to the value dumped. *)
Inductive FileContent :=
| NotJson
| Json (v : json).

Inductive Exn :=
| JSONDecodeError | AttributeError | TypeError | TclError | OSError.

(** ** The Tk root window *)

(** The calls made on [self.root] (and the modal dialogs), newest first in
    [calls].  [alpha] is the last value pushed with
    [attributes('-alpha', v)]; [mapped] is false after [withdraw]. *)
Inductive TkCall :=
| SetAlpha (a : Q)
| Deiconify | Withdraw | Lift | Topmost | FocusForce | Update
| ConfigureBg (c : string)
| CanvasBg (c : string)
| InfoDialog (title : string)
| ErrorDialog (title : string) (e : Exn).

Record Root := mkRoot {
  alpha : Q;
  mapped : bool;
  calls : list TkCall
}.

Definition tk_apply (c : TkCall) (r : Root) : Root :=
  match c with
  | SetAlpha a => mkRoot a (mapped r) (c :: calls r)
  | Deiconify => mkRoot (alpha r) true (c :: calls r)
  | Withdraw => mkRoot (alpha r) false (c :: calls r)
  | _ => mkRoot (alpha r) (mapped r) (c :: calls r)
  end.

(** Work posted with [root.after(0, f)] by the tray thread. *)
Inductive Callback := CbTogglePause.

(** ** class Focus_AreaWindow *)

(** [self.peek_opacity] is assigned once, in [__init__], and never again. *)
Definition peek_opacity : Q := 3 # 10.

(** [drawing_rect] holds the id of the preview rectangle together with the
    coordinates of that canvas item; ids start at 1, so an id is always
    true in [if self.drawing_rect].  [current] is the class attribute
    [FocusArea.current], kept as the [rect_id] of the object it names.
    [next_id] is the next item id of the canvas. *)
Record Window := mkWindow {
  veil_color : string;
  veil_opacity : Q;
  is_visible : bool;
  is_transparent_for_editing : bool;
  peek_through_opacity : Q;
  is_peeking : bool;
  last_user_opacity : Q;
  show_quick_start_on_startup : bool;
  focus_areas : list FocusArea;
  drawing_rect : option (nat * Coords);
  draw_start_x : Z;
  draw_start_y : Z;
  current : option nat;
  next_id : nat;
  root : Root;
  config_file : option FileContent;
  after_queue : list Callback
}.

Definition set_veil_color (v : string) (w : Window) : Window :=
  mkWindow v (veil_opacity w) (is_visible w) (is_transparent_for_editing w)
    (peek_through_opacity w) (is_peeking w) (last_user_opacity w)
    (show_quick_start_on_startup w) (focus_areas w) (drawing_rect w)
    (draw_start_x w) (draw_start_y w) (current w) (next_id w) (root w)
    (config_file w) (after_queue w).

Definition set_veil_opacity (v : Q) (w : Window) : Window :=
  mkWindow (veil_color w) v (is_visible w) (is_transparent_for_editing w)
    (peek_through_opacity w) (is_peeking w) (last_user_opacity w)
    (show_quick_start_on_startup w) (focus_areas w) (drawing_rect w)
    (draw_start_x w) (draw_start_y w) (current w) (next_id w) (root w)
    (config_file w) (after_queue w).

Definition set_is_visible (v : bool) (w : Window) : Window :=
  mkWindow (veil_color w) (veil_opacity w) v (is_transparent_for_editing w)
    (peek_through_opacity w) (is_peeking w) (last_user_opacity w)
    (show_quick_start_on_startup w) (focus_areas w) (drawing_rect w)
    (draw_start_x w) (draw_start_y w) (current w) (next_id w) (root w)
    (config_file w) (after_queue w).

Definition set_is_transparent_for_editing (v : bool) (w : Window) : Window :=
  mkWindow (veil_color w) (veil_opacity w) (is_visible w) v
    (peek_through_opacity w) (is_peeking w) (last_user_opacity w)
    (show_quick_start_on_startup w) (focus_areas w) (drawing_rect w)
    (draw_start_x w) (draw_start_y w) (current w) (next_id w) (root w)
    (config_file w) (after_queue w).

Definition set_peek_through_opacity (v : Q) (w : Window) : Window :=
  mkWindow (veil_color w) (veil_opacity w) (is_visible w)
    (is_transparent_for_editing w) v (is_peeking w) (last_user_opacity w)
    (show_quick_start_on_startup w) (focus_areas w) (drawing_rect w)
    (draw_start_x w) (draw_start_y w) (current w) (next_id w) (root w)
    (config_file w) (after_queue w).

Definition set_is_peeking (v : bool) (w : Window) : Window :=
  mkWindow (veil_color w) (veil_opacity w) (is_visible w)
    (is_transparent_for_editing w) (peek_through_opacity w) v
    (last_user_opacity w) (show_quick_start_on_startup w) (focus_areas w)
    (drawing_rect w) (draw_start_x w) (draw_start_y w) (current w)
    (next_id w) (root w) (config_file w) (after_queue w).

Definition set_last_user_opacity (v : Q) (w : Window) : Window :=
  mkWindow (veil_color w) (veil_opacity w) (is_visible w)
    (is_transparent_for_editing w) (peek_through_opacity w) (is_peeking w)
    v (show_quick_start_on_startup w) (focus_areas w) (drawing_rect w)
    (draw_start_x w) (draw_start_y w) (current w) (next_id w) (root w)
    (config_file w) (after_queue w).

Definition set_show_quick_start_on_startup (v : bool) (w : Window) : Window :=
  mkWindow (veil_color w) (veil_opacity w) (is_visible w)
    (is_transparent_for_editing w) (peek_through_opacity w) (is_peeking w)
    (last_user_opacity w) v (focus_areas w) (drawing_rect w)
    (draw_start_x w) (draw_start_y w) (current w) (next_id w) (root w)
    (config_file w) (after_queue w).

Definition set_focus_areas (v : list FocusArea) (w : Window) : Window :=
  mkWindow (veil_color w) (veil_opacity w) (is_visible w)
    (is_transparent_for_editing w) (peek_through_opacity w) (is_peeking w)
    (last_user_opacity w) (show_quick_start_on_startup w) v (drawing_rect w)
    (draw_start_x w) (draw_start_y w) (current w) (next_id w) (root w)
    (config_file w) (after_queue w).

Definition set_drawing_rect (v : option (nat * Coords)) (w : Window) : Window :=
  mkWindow (veil_color w) (veil_opacity w) (is_visible w)
    (is_transparent_for_editing w) (peek_through_opacity w) (is_peeking w)
    (last_user_opacity w) (show_quick_start_on_startup w) (focus_areas w) v
    (draw_start_x w) (draw_start_y w) (current w) (next_id w) (root w)
    (config_file w) (after_queue w).

Definition set_draw_start (x y : Z) (w : Window) : Window :=
  mkWindow (veil_color w) (veil_opacity w) (is_visible w)
    (is_transparent_for_editing w) (peek_through_opacity w) (is_peeking w)
    (last_user_opacity w) (show_quick_start_on_startup w) (focus_areas w)
    (drawing_rect w) x y (current w) (next_id w) (root w)
    (config_file w) (after_queue w).

Definition set_current (v : option nat) (w : Window) : Window :=
  mkWindow (veil_color w) (veil_opacity w) (is_visible w)
    (is_transparent_for_editing w) (peek_through_opacity w) (is_peeking w)
    (last_user_opacity w) (show_quick_start_on_startup w) (focus_areas w)
    (drawing_rect w) (draw_start_x w) (draw_start_y w) v (next_id w) (root w)
    (config_file w) (after_queue w).

Definition set_next_id (v : nat) (w : Window) : Window :=
  mkWindow (veil_color w) (veil_opacity w) (is_visible w)
    (is_transparent_for_editing w) (peek_through_opacity w) (is_peeking w)
    (last_user_opacity w) (show_quick_start_on_startup w) (focus_areas w)
    (drawing_rect w) (draw_start_x w) (draw_start_y w) (current w) v (root w)
    (config_file w) (after_queue w).

Definition set_root (v : Root) (w : Window) : Window :=
  mkWindow (veil_color w) (veil_opacity w) (is_visible w)
    (is_transparent_for_editing w) (peek_through_opacity w) (is_peeking w)
    (last_user_opacity w) (show_quick_start_on_startup w) (focus_areas w)
    (drawing_rect w) (draw_start_x w) (draw_start_y w) (current w)
    (next_id w) v (config_file w) (after_queue w).

Definition set_config_file (v : option FileContent) (w : Window) : Window :=
  mkWindow (veil_color w) (veil_opacity w) (is_visible w)
    (is_transparent_for_editing w) (peek_through_opacity w) (is_peeking w)
    (last_user_opacity w) (show_quick_start_on_startup w) (focus_areas w)
    (drawing_rect w) (draw_start_x w) (draw_start_y w) (current w)
    (next_id w) (root w) v (after_queue w).

Definition set_after_queue (v : list Callback) (w : Window) : Window :=
  mkWindow (veil_color w) (veil_opacity w) (is_visible w)
    (is_transparent_for_editing w) (peek_through_opacity w) (is_peeking w)
    (last_user_opacity w) (show_quick_start_on_startup w) (focus_areas w)
    (drawing_rect w) (draw_start_x w) (draw_start_y w) (current w)
    (next_id w) (root w) (config_file w) v.

(** One call on the Tk root. *)
Definition tk (c : TkCall) (w : Window) : Window :=
  set_root (tk_apply c (root w)) w.

Definition tks (cs : list TkCall) (w : Window) : Window :=
  fold_left (fun w c => tk c w) cs w.

(** [Focus_AreaWindow.update_opacity]. *)
Definition update_opacity (w : Window) : Window :=
  let w := set_last_user_opacity (veil_opacity w) w in
  if negb (is_peeking w) && negb (is_transparent_for_editing w)
  then tk (SetAlpha (veil_opacity w)) w
  else w.

(** [Focus_AreaWindow.set_transparent_for_editing]. *)
Definition set_transparent_for_editing (transparent : bool) (w : Window)
  : Window :=
  let w := set_is_transparent_for_editing transparent w in
  if transparent then tk (SetAlpha peek_opacity) w
  else if negb (is_peeking w) then update_opacity w
  else w.

(** [FocusArea(self, x, y, width, height)] called by the window: the canvas
    hands out two fresh item ids. *)
Definition new_FocusArea (x y width height : Q) (w : Window)
  : FocusArea * Window :=
  let rid := next_id w in
  (FocusArea_init rid (S rid) x y width height, set_next_id (S (S rid)) w).

(** [focus_areas.remove(self)]: the first occurrence of the object. *)
Fixpoint remove_area (rid : nat) (l : list FocusArea) : list FocusArea :=
  match l with
  | [] => []
  | fa :: l' =>
    if Nat.eqb (rect_id fa) rid then l' else fa :: remove_area rid l'
  end.

(** [FocusArea.delete]. *)
Definition FocusArea_delete (fa : FocusArea) (w : Window) : Window :=
  let w := match current w with
           | Some c => if Nat.eqb c (rect_id fa) then set_current None w else w
           | None => w
           end in
  set_focus_areas (remove_area (rect_id fa) (focus_areas w)) w.

(** [Focus_AreaWindow.delete_all_focus_areas]. *)
Definition delete_all_focus_areas (w : Window) : Window :=
  let w := fold_left (fun w fa => FocusArea_delete fa w) (focus_areas w) w in
  set_focus_areas [] w.

(** [Focus_AreaWindow.on_canvas_press].  [over_item] is what the loop over
    [canvas.find_overlapping(event.x, event.y, event.x, event.y)] finds:
    true when an item tagged "focus_area" or "move_handle" lies under the
    pointer. *)
Definition on_canvas_press (over_item : bool) (ex ey : Z) (w : Window)
  : Window :=
  if over_item then w
  else set_transparent_for_editing true (set_draw_start ex ey w).

(** The test [self.draw_start_x == 0 and self.draw_start_y == 0]. *)
Definition draw_idle (w : Window) : bool :=
  (draw_start_x w =? 0)%Z && (draw_start_y w =? 0)%Z.

(** [Focus_AreaWindow.on_canvas_drag]. *)
Definition on_canvas_drag (ex ey : Z) (w : Window) : Window :=
  if draw_idle w then w
  else
    let x1 := Z.min (draw_start_x w) ex in
    let y1 := Z.min (draw_start_y w) ey in
    let x2 := Z.max (draw_start_x w) ex in
    let y2 := Z.max (draw_start_y w) ey in
    set_drawing_rect
      (Some (next_id w,
             mkCoords (inject_Z x1) (inject_Z y1) (inject_Z x2) (inject_Z y2)))
      (set_next_id (S (next_id w)) w).

(** [Focus_AreaWindow.on_canvas_release]. *)
Definition on_canvas_release (ex ey : Z) (w : Window) : Window :=
  if draw_idle w then w
  else
    let w :=
      match drawing_rect w with
      | Some _ =>
        let x1 := Z.min (draw_start_x w) ex in
        let y1 := Z.min (draw_start_y w) ey in
        let x2 := Z.max (draw_start_x w) ex in
        let y2 := Z.max (draw_start_y w) ey in
        let width := (x2 - x1)%Z in
        let height := (y2 - y1)%Z in
        let w := set_drawing_rect None w in
        if Qle_bool MIN_SIZE (inject_Z width)
           && Qle_bool MIN_SIZE (inject_Z height)
        then
          let '(focus_area, w) :=
            new_FocusArea (inject_Z x1) (inject_Z y1)
                          (inject_Z width) (inject_Z height) w in
          set_focus_areas (focus_areas w ++ [focus_area]) w
        else w
      | None => w
      end in
    set_transparent_for_editing false (set_draw_start 0 0 w).

(** [Focus_AreaWindow.on_mousewheel]; [event_delta] is [event.delta].
    The step is the fraction 1/100 here; the program adds the double
    [0.01] and rounds. *)
Definition on_mousewheel (event_delta : Z) (w : Window) : Window :=
  let delta := inject_Z event_delta / 120 in
  let w :=
    if Qlt_bool 0 delta
    then set_veil_opacity (py_min 1 (veil_opacity w + (1 # 100))) w
    else set_veil_opacity (py_max (1 # 100) (veil_opacity w - (1 # 100))) w in
  update_opacity w.

(** [Focus_AreaWindow.on_shift_press]. *)
Definition on_shift_press (w : Window) : Window :=
  if negb (is_peeking w) && is_visible w then
    let w := set_is_peeking true w in
    if Qlt_bool (peek_through_opacity w) (veil_opacity w)
    then tk (SetAlpha (peek_through_opacity w)) w
    else w
  else w.

(** [Focus_AreaWindow.on_shift_release]. *)
Definition on_shift_release (w : Window) : Window :=
  if is_peeking w then
    let w := set_is_peeking false w in
    if negb (is_transparent_for_editing w)
    then tk (SetAlpha (veil_opacity w)) w
    else w
  else w.

(** [Focus_AreaWindow.on_pause_shortcut]: "Only pauses - does not toggle." *)
Definition on_pause_shortcut (w : Window) : Window :=
  if is_visible w then tk Withdraw (set_is_visible false w) else w.

(** [Focus_AreaWindow.toggle_pause]. *)
Definition toggle_pause (w : Window) : Window :=
  let w := set_is_visible (negb (is_visible w)) w in
  if is_visible w then
    tks [SetAlpha (veil_opacity w); Deiconify; Lift; Topmost; FocusForce;
         SetAlpha (veil_opacity w); Update] w
  else tk Withdraw w.

(** [tray_toggle_visibility] and [tray_toggle_pause]: both post
    [toggle_pause] with [root.after(0, ...)]. *)
Definition tray_toggle_visibility (w : Window) : Window :=
  set_after_queue (after_queue w ++ [CbTogglePause]) w.

Definition tray_toggle_pause (w : Window) : Window :=
  set_after_queue (after_queue w ++ [CbTogglePause]) w.

(** The main loop runs the oldest posted callback. *)
Definition run_after (w : Window) : Window :=
  match after_queue w with
  | [] => w
  | CbTogglePause :: q => toggle_pause (set_after_queue q w)
  end.

(** ** Saving and loading the configuration *)

Definition coords_json (c : Coords) : json :=
  JArr [JNum (cx1 c); JNum (cy1 c); JNum (cx2 c); JNum (cy2 c)].

(** The dict built by [save_config]. *)
Definition config_of (w : Window) : json :=
  JObj [("veil_color", JStr (veil_color w));
        ("veil_opacity", JNum (veil_opacity w));
        ("peek_through_opacity", JNum (peek_through_opacity w));
        ("show_quick_start_on_startup", JBool (show_quick_start_on_startup w));
        ("focus_areas", JArr (map (fun fa => coords_json (get_coords fa))
                                  (focus_areas w)))]%string.

(** [Focus_AreaWindow.save_config].  [write_ok] is the outcome of opening
    and writing the file; on failure [open] raised and the file is as it
    was. *)
Definition save_config (write_ok : bool) (w : Window) : Window :=
  let config := config_of w in
  if write_ok
  then tk (InfoDialog "Saved") (set_config_file (Some (Json config)) w)
  else tk (ErrorDialog "Error" OSError) w.

(** A computation of [load_config]'s [try] block: it runs on the window,
    and an exception leaves the assignments made so far in place.
    [OutOfModel] marks a run that stores a value the typed record cannot
    hold (Python attributes are untyped), or whose further course depends
    on how Tk coerces such a value. *)
Inductive Result (A : Type) :=
| Ok (a : A)
| Raise (e : Exn)
| OutOfModel.
Arguments Ok {A} a.
Arguments Raise {A} e.
Arguments OutOfModel {A}.

Definition M (A : Type) : Type := Window -> Result A * Window.

Definition ret {A} (a : A) : M A := fun w => (Ok a, w).

Definition bind {A B} (m : M A) (f : A -> M B) : M B :=
  fun w =>
    match m w with
    | (Ok a, w') => f a w'
    | (Raise e, w') => (Raise e, w')
    | (OutOfModel, w') => (OutOfModel, w')
    end.

Definition lift {A} (r : Result A) : M A := fun w => (r, w).
Definition modify (f : Window -> Window) : M unit := fun w => (Ok tt, f w).
Definition get : M Window := fun w => (Ok w, w).

Declare Scope py_scope.
Delimit Scope py_scope with py.
Notation "x <- c ;; k" := (bind c (fun x => k))
  (at level 61, c at next level, right associativity) : py_scope.
Notation "c ;;; k" := (bind c (fun _ => k))
  (at level 61, right associativity) : py_scope.

(** [json.load(f)]. *)
Definition json_load (content : FileContent) : Result json :=
  match content with
  | NotJson => Raise JSONDecodeError
  | Json v => Ok v
  end.

Fixpoint assoc (k : string) (kv : list (string * json)) : option json :=
  match kv with
  | [] => None
  | (k', v) :: kv' => if String.eqb k k' then Some v else assoc k kv'
  end.

(** [config.get(k, d)]: only a dict has [get]. *)
Definition py_get (config : json) (k : string) (d : json) : Result json :=
  match config with
  | JObj kv => Ok (match assoc k kv with Some v => v | None => d end)
  | _ => Raise AttributeError
  end.

(** The elements Python iterates over, counts with [len] and unpacks: the
    items of a list, the characters of a string, the keys of a dict; the
    other values raise [TypeError]. *)
Definition py_seq (v : json) : Result (list json) :=
  match v with
  | JArr l => Ok l
  | JStr s => Ok (map (fun c => JStr (String c EmptyString))
                      (list_ascii_of_string s))
  | JObj kv => Ok (map (fun p => JStr (fst p)) kv)
  | _ => Raise TypeError
  end.

(** The operands of [a - b]: two numbers.  A boolean operand is an integer
    for Python and is left out of the model; anything else raises. *)
Definition py_sub_operands (a b : json) : Result (Q * Q) :=
  match a, b with
  | JNum p, JNum q => Ok (p, q)
  | JBool _, JNum _ | JNum _, JBool _ | JBool _, JBool _ => OutOfModel
  | _, _ => Raise TypeError
  end.

Definition as_str (v : json) : Result string :=
  match v with JStr s => Ok s | _ => OutOfModel end.

Definition as_num (v : json) : Result Q :=
  match v with JNum q => Ok q | _ => OutOfModel end.

Definition as_bool (v : json) : Result bool :=
  match v with JBool b => Ok b | _ => OutOfModel end.

Section Host.

(** Whether Tk accepts a string as a colour ([configure(bg=...)] raises
    [TclError] otherwise). *)
Variable valid_color : string -> bool.

Local Open Scope py_scope.

(** The loop [for coords in config.get('focus_areas', [])]. *)
Fixpoint load_areas (items : list json) : M unit :=
  match items with
  | [] => ret tt
  | coords :: rest =>
    elems <- lift (py_seq coords) ;;
    match elems with
    | [x1; y1; x2; y2] =>
      xs <- lift (py_sub_operands x2 x1) ;;
      ys <- lift (py_sub_operands y2 y1) ;;
      let width := fst xs - snd xs in
      let height := fst ys - snd ys in
      modify (fun w =>
                let '(focus_area, w) :=
                  new_FocusArea (snd xs) (snd ys) width height w in
                set_focus_areas (focus_areas w ++ [focus_area]) w)
    | _ => ret tt
    end ;;;
    load_areas rest
  end.

(** The [try] block of [load_config]. *)
Definition load_body (show_message : bool) (content : FileContent)
  : M unit :=
  config <- lift (json_load content) ;;
  v <- lift (py_get config "veil_color" (JStr "#0C0000")) ;;
  c <- lift (as_str v) ;;
  modify (set_veil_color c) ;;;
  v <- lift (py_get config "veil_opacity" (JNum 1)) ;;
  o <- lift (as_num v) ;;
  modify (set_veil_opacity o) ;;;
  v <- lift (py_get config "peek_through_opacity" (JNum (55 # 100))) ;;
  p <- lift (as_num v) ;;
  modify (set_peek_through_opacity p) ;;;
  v <- lift (py_get config "show_quick_start_on_startup" (JBool true)) ;;
  b <- lift (as_bool v) ;;
  modify (set_show_quick_start_on_startup b) ;;;
  (if valid_color c
   then modify (tks [ConfigureBg c; CanvasBg c])
   else lift (Raise TclError)) ;;;
  modify update_opacity ;;;
  modify delete_all_focus_areas ;;;
  v <- lift (py_get config "focus_areas" (JArr [])) ;;
  items <- lift (py_seq v) ;;
  load_areas items ;;;
  (if show_message then modify (tk (InfoDialog "Loaded")) else ret tt).

Inductive Outcome :=
| NoFile
| Loaded
| Failed (e : Exn)
| Unmodelled.

(** [Focus_AreaWindow.load_config]: a missing file returns at once; an
    exception of the [try] block is reported with [show_error_dialog]. *)
Definition load_config (show_message : bool) (w : Window)
  : Window * Outcome :=
  match config_file w with
  | None => (w, NoFile)
  | Some content =>
    match load_body show_message content w with
    | (Ok _, w') => (w', Loaded)
    | (Raise e, w') => (tk (ErrorDialog "Error" e) w', Failed e)
    | (OutOfModel, w') => (w', Unmodelled)
    end
  end.

(** [Focus_AreaWindow.__init__], given the configuration file found in
    the working directory. *)
Definition Focus_AreaWindow_init (file : option FileContent) : Window :=
  let w :=
    mkWindow "#0C0000" 1 true false (55 # 100) false 1 true
      [] None 0%Z 0%Z None 1%nat
      (mkRoot 1 false []) file [] in
  let w := tk Topmost w in
  let w := update_opacity w in
  let w := tks [ConfigureBg (veil_color w); CanvasBg (veil_color w)] w in
  let w := tks [Deiconify; Lift; Topmost; FocusForce; Update] w in
  fst (load_config false w).

(** ** The handlers as events of the main loop *)

Inductive Event :=
| CanvasPress (over_item : bool) (x y : Z)
| CanvasDrag (x y : Z)
| CanvasRelease (x y : Z)
| MouseWheel (delta : Z)
| ShiftPress
| ShiftRelease
| PauseShortcut
| DoubleClick
| MenuTogglePause
| TrayToggleVisibility
| TrayTogglePause
| RunAfter
| MenuSave (write_ok : bool)
| MenuLoad
| MenuDeleteAll.

Definition step (w : Window) (e : Event) : Window :=
  match e with
  | CanvasPress over_item x y => on_canvas_press over_item x y w
  | CanvasDrag x y => on_canvas_drag x y w
  | CanvasRelease x y => on_canvas_release x y w
  | MouseWheel d => on_mousewheel d w
  | ShiftPress => on_shift_press w
  | ShiftRelease => on_shift_release w
  | PauseShortcut => on_pause_shortcut w
  | DoubleClick => toggle_pause w
  | MenuTogglePause => toggle_pause w
  | TrayToggleVisibility => tray_toggle_visibility w
  | TrayTogglePause => tray_toggle_pause w
  | RunAfter => run_after w
  | MenuSave write_ok => save_config write_ok w
  | MenuLoad => fst (load_config true w)
  | MenuDeleteAll => delete_all_focus_areas w
  end.

Definition run (w : Window) (es : list Event) : Window :=
  fold_left step es w.

End Host.

(** ** Definitions that follow the specification's words *)

(** Effective opacity resolution as the specification words it:
    EditingPeek gives editingPeekOpacity, else ShiftPeek gives
    peekThroughOpacity, else veilOpacity. *)
Definition spec_effective_opacity (w : Window) : Q :=
  if is_transparent_for_editing w then peek_opacity
  else if is_peeking w then peek_through_opacity w
  else veil_opacity w.

Definition is_hex_digit (c : ascii) : bool :=
  let n := nat_of_ascii c in
  ((48 <=? n) && (n <=? 57) || (65 <=? n) && (n <=? 70)
   || (97 <=? n) && (n <=? 102))%nat.

(** Colours written "#RRGGBB"; Tk accepts all of them. *)
Definition hex_color (s : string) : bool :=
  match s with
  | String "#" r =>
    (String.length r =? 6)%nat && forallb is_hex_digit (list_ascii_of_string r)
  | _ => false
  end.

(** The persisted config record as the specification gives it: an object
    whose fields, when present, are a "#RRGGBB" colour, two opacities in
    (0, 1], a boolean and a list of [[x1, y1, x2, y2]] number lists. *)
Definition field_ok (kv : list (string * json)) (k : string)
  (ok : json -> bool) : bool :=
  match assoc k kv with
  | Some v => ok v
  | None => true
  end.

Definition spec_opacity_ok (v : json) : bool :=
  match v with
  | JNum q => Qlt_bool 0 q && Qle_bool q 1
  | _ => false
  end.

Definition spec_rect_ok (v : json) : bool :=
  match v with
  | JArr [JNum _; JNum _; JNum _; JNum _] => true
  | _ => false
  end.

Definition spec_well_formed (v : json) : bool :=
  match v with
  | JObj kv =>
    field_ok kv "veil_color"
      (fun v => match v with JStr s => hex_color s | _ => false end)
    && field_ok kv "veil_opacity" spec_opacity_ok
    && field_ok kv "peek_through_opacity" spec_opacity_ok
    && field_ok kv "show_quick_start_on_startup"
         (fun v => match v with JBool _ => true | _ => false end)
    && field_ok kv "focus_areas"
         (fun v => match v with JArr l => forallb spec_rect_ok l | _ => false end)
  | _ => false
  end.

Definition spec_malformed (content : FileContent) : bool :=
  match content with
  | NotJson => true
  | Json v => negb (spec_well_formed v)
  end.

(** Content that is not JSON, or JSON whose top-level value is not an
    object. *)
Definition not_an_object (content : FileContent) : bool :=
  match content with
  | NotJson => true
  | Json (JObj _) => false
  | Json _ => true
  end.

(** A completed draw gesture: a press on empty canvas at the anchor, the
    drags, the release. *)
Definition draw_gesture (ax ay : Z) (drags : list (Z * Z)) (rx ry : Z)
  (w : Window) : Window :=
  let w := on_canvas_press false ax ay w in
  let w := fold_left (fun w p => on_canvas_drag (fst p) (snd p) w) drags w in
  on_canvas_release rx ry w.

(** The normalized preview rectangle of a gesture: min and max of the
    anchor and the release pointer. *)
Definition spec_preview (ax ay rx ry : Z) : Coords :=
  mkCoords (inject_Z (Z.min ax rx)) (inject_Z (Z.min ay ry))
           (inject_Z (Z.max ax rx)) (inject_Z (Z.max ay ry)).

(** A window right after start-up with no configuration file. *)
Definition fresh_window : Window := Focus_AreaWindow_init hex_color None.

(** The area of the specification's scenario A, grabbed by its south-east
    corner. *)
Definition area_se : FocusArea :=
  on_press (FocusArea_init 1 2 100 100 200 150) 295 245.

(** The visibility toggle as the specification words it, for a handler
    [h]: Visible goes to Paused with the window hidden; Paused goes to
    Visible with the window shown, raised, refocused and the effective
    opacity applied again. *)
Definition shown_raised_refocused (r r' : Root) : Prop :=
  mapped r' = true /\
  exists cs, calls r' = cs ++ calls r /\
             In Deiconify cs /\ In Lift cs /\ In FocusForce cs.

Definition spec_toggles (h : Window -> Window) (w : Window) : Prop :=
  is_visible (h w) = negb (is_visible w) /\
  (is_visible w = true -> mapped (root (h w)) = false) /\
  (is_visible w = false ->
   shown_raised_refocused (root w) (root (h w)) /\
   alpha (root (h w)) == spec_effective_opacity (h w)).

(** A paused window. *)
Definition paused_window : Window := toggle_pause fresh_window.

(** Fifty wheel notches down, then Shift. *)
Definition wheel_then_shift : list Event :=
  repeat (MouseWheel (-120)) 50 ++ [ShiftPress].

(** A draw gesture is started, then Shift is pressed. *)
Definition draw_then_shift : list Event :=
  [CanvasPress false 100 100; ShiftPress].

(** What the [for] loop of [load_config] does with one saved rectangle. *)
Definition append_area (c : Coords) (w : Window) : Window :=
  let '(focus_area, w) :=
    new_FocusArea (cx1 c) (cy1 c) (cx2 c - cx1 c) (cy2 c - cy1 c) w in
  set_focus_areas (focus_areas w ++ [focus_area]) w.

(** Loading fails, the error dialog is shown and nothing else changes. *)
Definition load_fails_unchanged (valid_color : string -> bool)
  (show_message : bool) (w : Window) : Prop :=
  exists e, load_config valid_color show_message w
            = (tk (ErrorDialog "Error" e) w, Failed e).

(** A window with one focus area, drawn from (100, 100) to (300, 250). *)
Definition window_with_area : Window :=
  run hex_color fresh_window
    [CanvasPress false 100 100; CanvasDrag 300 250; CanvasRelease 300 250].

(** A configuration that parses and whose "focus_areas" is a number. *)
Definition bad_config : json :=
  JObj [("veil_opacity", JNum (1 # 2)); ("focus_areas", JNum 5)]%string.

(** The opacities of two windows agree. *)
Definition same_opacities (w w' : Window) : Prop :=
  veil_opacity w' = veil_opacity w /\
  peek_through_opacity w' = peek_through_opacity w.

(** ** The rest of class FocusArea *)

(** [cursor_map] of [FocusArea.update_cursor]. *)
Definition cursor_map : list (string * string) :=
  [("nw", "size_nw_se"); ("ne", "size_ne_sw"); ("sw", "size_ne_sw");
   ("se", "size_nw_se"); ("n", "size_ns"); ("s", "size_ns");
   ("w", "size_we"); ("e", "size_we"); ("move", "fleur")]%string.

Fixpoint str_assoc (k : string) (l : list (string * string)) : option string :=
  match l with
  | [] => None
  | (k', v) :: l' => if String.eqb k k' then Some v else str_assoc k l'
  end.

(** [FocusArea.update_cursor]: the cursor it configures on the canvas,
    [cursor_map.get(resize_mode, "arrow")]. *)
Definition update_cursor (resize_mode : option string) : string :=
  match resize_mode with
  | Some m => match str_assoc m cursor_map with
              | Some c => c
              | None => "arrow"
              end
  | None => "arrow"
  end.

(** [FocusArea.on_motion]: the cursor it configures, [None] when it leaves
    the cursor alone. *)
Definition on_motion (fa : FocusArea) (ex ey : Z) : option string :=
  if negb (is_dragging fa)
  then Some (update_cursor (get_resize_mode fa (inject_Z ex) (inject_Z ey)))
  else None.

(** [FocusArea.on_handle_press], without its assignment to
    [FocusArea.current], which [area_event] makes. *)
Definition on_handle_press (fa : FocusArea) (ex ey : Z) : FocusArea :=
  set_dragging true (Some "move"%string) (set_drag_start ex ey fa).

(** The handle sits on the golden point of the left edge: exactly, for
    the rationals of the model; the program computes [0.382 * height] and
    the centre of the oval in binary64, so there the two agree within
    floating tolerance. *)
Definition handle_aligned (fa : FocusArea) : Prop :=
  center_x (handle fa) == cx1 (rect fa) /\
  center_y (handle fa) == cy1 (rect fa) + golden * height (rect fa).


(** ** The rest of class Focus_AreaWindow *)

(** [self.transparency_key] is assigned once, in [__init__]. *)
Definition transparency_key : string := "#FF00FF".

(** [Focus_AreaWindow.change_opacity]. *)
Definition change_opacity (delta : Q) (w : Window) : Window :=
  let w := set_veil_opacity
             (py_max (1 # 100) (py_min 1 (veil_opacity w + delta))) w in
  let w := set_last_user_opacity (veil_opacity w) w in
  if negb (is_peeking w) && negb (is_transparent_for_editing w)
  then tk (SetAlpha (veil_opacity w)) w
  else w.

(** [Focus_AreaWindow.change_peek_through_opacity]. *)
Definition change_peek_through_opacity (delta : Q) (w : Window) : Window :=
  let w := set_peek_through_opacity
             (py_max (1 # 100) (py_min 1 (peek_through_opacity w + delta))) w in
  if is_peeking w then tk (SetAlpha (peek_through_opacity w)) w else w.

(** What the user does in the input dialog: OK (or Return) with the text
    of the entry, [None] when [int] raises [ValueError] on it, or Cancel. *)
Inductive DialogAction :=
| ClickOk (entry : option Z)
| ClickCancel.

(** [Focus_AreaWindow.show_input_dialog]: the dialog stays open until an
    OK passes the bounds test or the user cancels; closing the window
    leaves the result at [None]. *)
Fixpoint show_input_dialog (min_val max_val : Z) (user : list DialogAction)
  : option Z :=
  match user with
  | [] => None
  | ClickOk (Some value) :: rest =>
    if ((min_val <=? value) && (value <=? max_val))%Z then Some value
    else show_input_dialog min_val max_val rest
  | ClickOk None :: rest => show_input_dialog min_val max_val rest
  | ClickCancel :: _ => None
  end.

(** [Focus_AreaWindow.set_opacity_dialog]. *)
Definition set_opacity_dialog (user : list DialogAction) (w : Window)
  : Window :=
  match show_input_dialog 1 100 user with
  | Some result =>
    let w := set_veil_opacity (inject_Z result / 100) w in
    let w := set_last_user_opacity (veil_opacity w) w in
    if negb (is_peeking w) && negb (is_transparent_for_editing w)
    then tk (SetAlpha (veil_opacity w)) w
    else w
  | None => w
  end.

(** [Focus_AreaWindow.set_peek_through_opacity_dialog]. *)
Definition set_peek_through_opacity_dialog (user : list DialogAction)
  (w : Window) : Window :=
  match show_input_dialog 1 100 user with
  | Some result =>
    let w := set_peek_through_opacity (inject_Z result / 100) w in
    if is_peeking w then tk (SetAlpha (peek_through_opacity w)) w else w
  | None => w
  end.

(** [Focus_AreaWindow.reset_to_black]. *)
Definition reset_to_black (w : Window) : Window :=
  let w := set_veil_color "#000000" w in
  let w := set_veil_opacity 1 w in
  let w := tks [ConfigureBg (veil_color w); CanvasBg (veil_color w)] w in
  update_opacity w.

(** [Focus_AreaWindow.set_default_opacity] and
    [set_default_peek_through_opacity]: save, then an info dialog. *)
Definition set_default_opacity (write_ok : bool) (w : Window) : Window :=
  tk (InfoDialog "Default Opacity Set") (save_config write_ok w).

Definition set_default_peek_through_opacity (write_ok : bool) (w : Window)
  : Window :=
  tk (InfoDialog "Default Peek Through Opacity Set") (save_config write_ok w).

(** [on_checkbox_toggle] of the quick start guide; [dont_show] is
    [dont_show_var.get()]. *)
Definition on_checkbox_toggle (dont_show write_ok : bool) (w : Window)
  : Window :=
  save_config write_ok (set_show_quick_start_on_startup (negb dont_show) w).

(** The object bound to a canvas item, looked up by the item id. *)
Definition find_area (rid : nat) (w : Window) : option FocusArea :=
  find (fun fa => Nat.eqb (rect_id fa) rid) (focus_areas w).

(** A handler mutates its object in place: the new value takes the place
    of the object with the same id. *)
Fixpoint replace_area (fa' : FocusArea) (l : list FocusArea)
  : list FocusArea :=
  match l with
  | [] => []
  | fa :: l' =>
    if Nat.eqb (rect_id fa) (rect_id fa') then fa' :: l'
    else fa :: replace_area fa' l'
  end.

Definition put_area (fa' : FocusArea) (w : Window) : Window :=
  set_focus_areas (replace_area fa' (focus_areas w)) w.

(** [FocusArea.on_leave], as far as the state goes. *)
Definition on_leave (fa : FocusArea) (w : Window) : Window :=
  match current w with
  | Some c => if Nat.eqb c (rect_id fa) then set_current None w else w
  | None => w
  end.

(** [Focus_AreaWindow.delete_current_focus_area]. *)
Definition delete_current_focus_area (w : Window) : Window :=
  match current w with
  | Some c =>
    match find_area c w with
    | Some fa => FocusArea_delete fa w
    | None => set_current None w
    end
  | None => w
  end.

(** The events Tk delivers to the items of one focus area: to its
    rectangle (press, drag, release, leave) and to its handle. *)
Inductive AreaEvent :=
| RectPress (x y : Z)
| RectDrag (x y : Z)
| RectRelease
| RectLeave
| HandlePress (x y : Z)
| HandleDrag (x y : Z)
| HandleRelease.

Definition area_event (a : AreaEvent) (fa : FocusArea) (w : Window)
  : Window :=
  match a with
  | RectPress x y => put_area (on_press fa x y) w
  | RectDrag x y => put_area (on_drag fa x y) w
  | RectRelease => put_area (on_release fa) w
  | RectLeave => on_leave fa w
  | HandlePress x y =>
    set_current (Some (rect_id fa)) (put_area (on_handle_press fa x y) w)
  | HandleDrag x y => put_area (on_handle_drag fa x y) w
  | HandleRelease => put_area (on_handle_release fa) w
  end.

(** The window together with the flag [handle_right_clicked] and the
    warning dialogs shown. *)
Record Session := mkSession {
  win : Window;
  handle_right_clicked : bool;
  warnings : list string
}.

Definition on_win (f : Window -> Window) (s : Session) : Session :=
  mkSession (f (win s)) (handle_right_clicked s) (warnings s).

(** [FocusArea.on_handle_right_click]. *)
Definition on_handle_right_click (fa : FocusArea) (s : Session) : Session :=
  mkSession (FocusArea_delete fa (win s)) true (warnings s).

(** [Focus_AreaWindow.show_main_menu]: whether the menu is posted. *)
Definition show_main_menu (s : Session) : bool * Session :=
  if handle_right_clicked s
  then (false, mkSession (win s) false (warnings s))
  else (true, s).

Definition upper_ascii (c : ascii) : ascii :=
  let n := nat_of_ascii c in
  if ((97 <=? n) && (n <=? 122))%nat then ascii_of_nat (n - 32) else c.

(** [str.upper] on ASCII text. *)
Fixpoint upper (s : string) : string :=
  match s with
  | EmptyString => EmptyString
  | String c s' => String (upper_ascii c) (upper s')
  end.

Section HostActions.

Variable valid_color : string -> bool.

(** [Focus_AreaWindow.choose_color]; [picked] is [color[1]] of what
    [askcolor] returns.  When Tk rejects the colour [configure] raises out
    of the handler, after the assignment. *)
Definition choose_color (picked : option string) (s : Session) : Session :=
  match picked with
  | Some c =>
    if truthy picked then
      let new_color := upper c in
      if String.eqb new_color transparency_key
      then mkSession (win s) (handle_right_clicked s)
                     ("Color Conflict"%string :: warnings s)
      else
        on_win (fun w =>
                  let w := set_veil_color new_color w in
                  if valid_color new_color
                  then tks [ConfigureBg new_color; CanvasBg new_color] w
                  else w) s
    else s
  | None => s
  end.

(** What the user can do to a running window. *)
Inductive Action :=
| Win (e : Event)
| Area (rid : nat) (a : AreaEvent)
| HandleRightClick (rid : nat)
| RightClick
| DeleteKey
| ChooseColor (picked : option string)
| ResetToBlack
| ChangeOpacity (delta : Q)
| ChangePeekThroughOpacity (delta : Q)
| SetOpacityDialog (user : list DialogAction)
| SetPeekThroughOpacityDialog (user : list DialogAction)
| SetDefaultOpacity (write_ok : bool)
| SetDefaultPeekThroughOpacity (write_ok : bool)
| QuickStartCheckbox (dont_show write_ok : bool).

(** An event on an item reaches the object that owns the item; a deleted
    object has no items left. *)
Definition act (s : Session) (a : Action) : Session :=
  match a with
  | Win e => on_win (fun w => step valid_color w e) s
  | Area rid ev =>
    match find_area rid (win s) with
    | Some fa => on_win (area_event ev fa) s
    | None => s
    end
  | HandleRightClick rid =>
    match find_area rid (win s) with
    | Some fa => on_handle_right_click fa s
    | None => s
    end
  | RightClick => snd (show_main_menu s)
  | DeleteKey => on_win delete_current_focus_area s
  | ChooseColor picked => choose_color picked s
  | ResetToBlack => on_win reset_to_black s
  | ChangeOpacity delta => on_win (change_opacity delta) s
  | ChangePeekThroughOpacity delta =>
    on_win (change_peek_through_opacity delta) s
  | SetOpacityDialog user => on_win (set_opacity_dialog user) s
  | SetPeekThroughOpacityDialog user =>
    on_win (set_peek_through_opacity_dialog user) s
  | SetDefaultOpacity write_ok => on_win (set_default_opacity write_ok) s
  | SetDefaultPeekThroughOpacity write_ok =>
    on_win (set_default_peek_through_opacity write_ok) s
  | QuickStartCheckbox dont_show write_ok =>
    on_win (on_checkbox_toggle dont_show write_ok) s
  end.

Definition acts (s : Session) (l : list Action) : Session :=
  fold_left act l s.

End HostActions.

(** A session right after start-up with no configuration file. *)
Definition fresh_session : Session := mkSession fresh_window false [].

(** ** Invariants of a running window *)

Definition big_enough (c : Coords) : Prop :=
  MIN_SIZE <= width c /\ MIN_SIZE <= height c.

(** The ids of an area's items were handed out by the canvas, the oval
    right after the rectangle. *)
Definition ids_ok (n : nat) (fa : FocusArea) : Prop :=
  (1 <= rect_id fa)%nat /\ move_handle_id fa = S (rect_id fa) /\
  (S (rect_id fa) < n)%nat.

Definition in_range (q : Q) : Prop := 1 # 100 <= q /\ q <= 1.

Definition settings_ok (w : Window) : Prop :=
  veil_color w <> transparency_key /\
  in_range (veil_opacity w) /\ in_range (peek_through_opacity w).

(** The configuration file, if there is one, was written by [save_config]
    from a window with good settings and large enough areas. *)
Definition file_ok (f : option FileContent) : Prop :=
  f = None \/
  exists w0, f = Some (Json (config_of w0)) /\ settings_ok w0 /\
             Forall (fun fa => big_enough (rect fa)) (focus_areas w0).

Definition Inv (w : Window) : Prop :=
  NoDup (map rect_id (focus_areas w)) /\
  Forall (ids_ok (next_id w)) (focus_areas w) /\
  Forall (fun fa => big_enough (rect fa)) (focus_areas w) /\
  (forall c, current w = Some c -> In c (map rect_id (focus_areas w))) /\
  settings_ok w /\
  file_ok (config_file w) /\
  (1 <= next_id w)%nat /\
  (forall d, drawing_rect w = Some d -> (1 <= fst d)%nat).

(** Posting [n] tray toggles. *)
Definition post_toggles (n : nat) (w : Window) : Window :=
  Nat.iter n tray_toggle_pause w.




(** The areas the loop of [load_config] builds for saved coordinates when
    the canvas hands out ids from [n] on. *)
Definition reloaded_area (n : nat) (c : Coords) : FocusArea :=
  FocusArea_init n (S n) (cx1 c) (cy1 c) (cx2 c - cx1 c) (cy2 c - cy1 c).

Fixpoint reloaded_areas (n : nat) (cs : list Coords) : list FocusArea :=
  match cs with
  | [] => []
  | c :: r => reloaded_area n c :: reloaded_areas (S (S n)) r
  end.

(** [d.get(k, default)] on the items of a dict. *)
Definition get_default (kv : list (string * json)) (k : string) (d : json)
  : json :=
  match assoc k kv with Some v => v | None => d end.

(** The four settings assigned at the start of [load_config]. *)
Definition assign_settings (c : string) (o p : Q) (b : bool) (w : Window)
  : Window :=
  set_show_quick_start_on_startup b
    (set_peek_through_opacity p (set_veil_opacity o (set_veil_color c w))).

(** The part of the window the invariant speaks about. *)
Definition core (w : Window) :=
  (focus_areas w, current w, next_id w, veil_color w, veil_opacity w,
   peek_through_opacity w, config_file w, drawing_rect w).



(** ** Whole-number coordinates

    On whole numbers of pixels the rationals of this model and the
    doubles of the program agree.  Every rectangle the program creates
    from pointer events has such coordinates: event positions are
    integers, and moves and resizes add or assign integers.  Fractional
    coordinates enter only through a configuration file written by hand. *)
Definition is_whole (q : Q) : bool := (Qnum q mod Zpos (Qden q) =? 0)%Z.

Definition whole (q : Q) : Prop := is_whole q = true.

Definition whole_rect (c : Coords) : Prop :=
  whole (cx1 c) /\ whole (cy1 c) /\ whole (cx2 c) /\ whole (cy2 c).







(** * Properties *)

Lemma Qlt_bool_iff a b : Qlt_bool a b = true <-> a < b.
Proof.
  unfold Qlt_bool. rewrite negb_true_iff. split.
  - intros H. apply Qnot_le_lt. intros Hle.
    apply Qle_bool_iff in Hle. congruence.
  - intros H. destruct (Qle_bool b a) eqn:E; [|reflexivity].
    apply Qle_bool_iff in E. exfalso. exact (Qlt_not_le _ _ H E).
Qed.

Lemma Qlt_bool_false a b : Qlt_bool a b = false <-> b <= a.
Proof.
  unfold Qlt_bool. rewrite negb_false_iff. apply Qle_bool_iff.
Qed.

Lemma Qle_bool_false a b : Qle_bool a b = false <-> b < a.
Proof.
  rewrite <- Qlt_bool_iff. unfold Qlt_bool.
  destruct (Qle_bool a b); simpl; split; congruence.
Qed.

(** ** The resize step of [on_drag] *)

(** The letters of a resize mode's name are the edges the specification
    lists for it. *)
Lemma mode_letters (m : Mode) :
  m <> MMove ->
  String.eqb (mode_name m) "move" = false /\
  truthy (Some (mode_name m)) = true /\
  str_in "n" (mode_name m) = has_n m /\
  str_in "s" (mode_name m) = has_s m /\
  str_in "w" (mode_name m) = has_w m /\
  str_in "e" (mode_name m) = has_e m.
Proof.
  destruct m; intros H; try congruence; repeat split; reflexivity.
Qed.

(** In a resize mode, [on_drag] is the specification's edge assignment
    guarded by the size test. *)
Lemma on_drag_resize_eq (fa : FocusArea) (m : Mode) (ex ey : Z) :
  is_dragging fa = true ->
  resize_mode fa = Some (mode_name m) ->
  m <> MMove ->
  let nb := spec_resize_edges m (rect fa) ex ey in
  on_drag fa ex ey =
  if Qle_bool MIN_SIZE (width nb) && Qle_bool MIN_SIZE (height nb)
  then set_drag_start ex ey (update_handle_position (set_rect nb fa))
  else fa.
Proof.
  intros Hd Hm Hne nb.
  destruct (mode_letters m Hne) as (Hmv & Ht & Hn & Hs & Hw & He).
  unfold on_drag. rewrite Hd, Hm. cbn [negb].
  destruct (rect fa) as [x1 y1 x2 y2] eqn:Hr.
  rewrite Hmv, Ht, Hn, Hs, Hw, He.
  subst nb. unfold spec_resize_edges, width, height.
  reflexivity.
Qed.

Lemma rect_set_drag_start x y fa : rect (set_drag_start x y fa) = rect fa.
Proof. reflexivity. Qed.

Lemma rect_update_handle_position fa :
  rect (update_handle_position fa) = rect fa.
Proof.
  unfold update_handle_position. destruct (rect fa) eqn:E. cbn. exact E.
Qed.

Lemma handle_update_handle_position fa :
  handle (update_handle_position fa) =
  handle_oval (cx1 (rect fa))
              (cy1 (rect fa) + (cy2 (rect fa) - cy1 (rect fa)) * golden).
Proof. unfold update_handle_position. destruct (rect fa); reflexivity. Qed.

(** C1: a drag step in a resize mode moves the edges named by the mode's
    letters to the pointer and commits the new bounds when width and height
    are both at least MIN_SIZE; when either is smaller the step changes
    nothing. *)
Theorem on_drag_resize_step (fa : FocusArea) (m : Mode) (ex ey : Z) :
  is_dragging fa = true ->
  resize_mode fa = Some (mode_name m) ->
  m <> MMove ->
  let nb := spec_resize_edges m (rect fa) ex ey in
  (MIN_SIZE <= width nb /\ MIN_SIZE <= height nb ->
   rect (on_drag fa ex ey) = nb) /\
  (width nb < MIN_SIZE \/ height nb < MIN_SIZE ->
   on_drag fa ex ey = fa).
Proof.
  intros Hd Hm Hne nb.
  rewrite (on_drag_resize_eq fa m ex ey Hd Hm Hne). fold nb.
  split.
  - intros [Hw Hh].
    apply Qle_bool_iff in Hw. apply Qle_bool_iff in Hh.
    rewrite Hw, Hh. cbn [andb].
    rewrite rect_set_drag_start, rect_update_handle_position. reflexivity.
  - intros [Hw | Hh].
    + apply Qle_bool_false in Hw. rewrite Hw. reflexivity.
    + apply Qle_bool_false in Hh. rewrite Hh, andb_false_r. reflexivity.
Qed.

Lemma on_drag_resize_step_witness :
  (rect (on_drag area_se 130 110) = mkCoords 100 100 130 110) /\
  (on_drag (on_drag area_se 130 110) 105 108 = on_drag area_se 130 110).
Proof.
  split.
  - apply (on_drag_resize_step area_se MSE 130 110);
      [reflexivity | reflexivity | discriminate | ].
    split; vm_compute; discriminate.
  - apply (on_drag_resize_step (on_drag area_se 130 110) MSE 105 108);
      [reflexivity | reflexivity | discriminate | ].
    right. vm_compute. reflexivity.
Defined.

(** ** The move handle *)

(** C9: after a committed resize the move handle is centred on the left
    edge, 0.382 of the height below the top. *)
Theorem handle_after_resize (fa : FocusArea) (m : Mode) (ex ey : Z) :
  is_dragging fa = true ->
  resize_mode fa = Some (mode_name m) ->
  m <> MMove ->
  MIN_SIZE <= width (spec_resize_edges m (rect fa) ex ey) ->
  MIN_SIZE <= height (spec_resize_edges m (rect fa) ex ey) ->
  let fa' := on_drag fa ex ey in
  rect fa' = spec_resize_edges m (rect fa) ex ey /\
  center_x (handle fa') == cx1 (rect fa') /\
  center_y (handle fa') ==
    cy1 (rect fa') + golden * (cy2 (rect fa') - cy1 (rect fa')).
Proof.
  intros Hd Hm Hne Hw Hh fa'. subst fa'.
  rewrite (on_drag_resize_eq fa m ex ey Hd Hm Hne).
  apply Qle_bool_iff in Hw. apply Qle_bool_iff in Hh.
  rewrite Hw, Hh. cbn [andb].
  set (nb := spec_resize_edges m (rect fa) ex ey).
  assert (Hrect : rect (set_drag_start ex ey
                          (update_handle_position (set_rect nb fa))) = nb).
  { rewrite rect_set_drag_start, rect_update_handle_position. reflexivity. }
  assert (Hhandle : handle (set_drag_start ex ey
                          (update_handle_position (set_rect nb fa))) =
                    handle_oval (cx1 nb) (cy1 nb + (cy2 nb - cy1 nb) * golden)).
  { change (handle (update_handle_position (set_rect nb fa)) =
            handle_oval (cx1 nb) (cy1 nb + (cy2 nb - cy1 nb) * golden)).
    rewrite handle_update_handle_position. reflexivity. }
  rewrite Hrect, Hhandle.
  unfold center_x, center_y, handle_oval, move_handle_size, golden. cbn.
  repeat split; field.
Qed.

Lemma handle_after_resize_witness :
  let fa' := on_drag area_se 130 110 in
  rect fa' = mkCoords 100 100 130 110 /\
  center_x (handle fa') == 100 /\
  center_y (handle fa') == 100 + golden * (110 - 100).
Proof.
  apply (handle_after_resize area_se MSE 130 110);
    [reflexivity | reflexivity | discriminate | | ]; vm_compute; discriminate.
Defined.

(** Any point that equals the handle centre is classified "move". *)
Lemma get_resize_mode_near_handle (fa : FocusArea) (px py : Q) :
  px == cx1 (rect fa) ->
  py == cy1 (rect fa) + golden * height (rect fa) ->
  get_resize_mode fa px py = Some "move"%string.
Proof.
  intros Hx Hy. unfold get_resize_mode.
  destruct (rect fa) as [x1 y1 x2 y2]. unfold height in Hy. cbn in Hx, Hy.
  assert (H1 : Qlt_bool (Qabs (px - x1)) (resize_handle_size + 5) = true).
  { apply Qlt_bool_iff. unfold resize_handle_size.
    apply Qabs_case; intros; lra. }
  assert (H2 : Qle_bool (y1 + (y2 - y1) * golden - move_handle_size
                         - move_handle_buffer) py = true).
  { apply Qle_bool_iff.
    unfold golden, move_handle_size, move_handle_buffer in *. lra. }
  assert (H3 : Qle_bool py (y1 + (y2 - y1) * golden + move_handle_size
                            + move_handle_buffer) = true).
  { apply Qle_bool_iff.
    unfold golden, move_handle_size, move_handle_buffer in *. lra. }
  rewrite H1, H2, H3. reflexivity.
Qed.

(** C7: the hit test at the handle centre (x1, y1 + 0.382 * height) answers
    "move" for every rectangle, whatever edges are near. *)
Theorem handle_center_is_move (fa : FocusArea) :
  get_resize_mode fa (cx1 (rect fa))
                     (cy1 (rect fa) + golden * height (rect fa))
  = Some "move"%string.
Proof.
  apply get_resize_mode_near_handle; reflexivity.
Qed.

(** On a 10 by 10 rectangle the handle centre is within reach of the top
    and left edges, where a point next to it is classified as the corner. *)
Example handle_priority_small_rect :
  let fa := FocusArea_init 1 2 0 0 10 10 in
  get_resize_mode fa 0 (382 # 100) = Some "move"%string /\
  get_resize_mode fa 0 (-9) = Some "nw"%string.
Proof. split; vm_compute; reflexivity. Qed.

(** ** Shift peek *)

Lemma on_shift_press_eq (w : Window) :
  is_visible w = true -> is_peeking w = false ->
  on_shift_press w =
  if Qlt_bool (peek_through_opacity w) (veil_opacity w)
  then tk (SetAlpha (peek_through_opacity w)) (set_is_peeking true w)
  else set_is_peeking true w.
Proof.
  intros Hv Hp. unfold on_shift_press. rewrite Hv, Hp. reflexivity.
Qed.

Lemma on_shift_release_eq (w : Window) :
  is_peeking w = true ->
  on_shift_release w =
  if is_transparent_for_editing w
  then set_is_peeking false w
  else tk (SetAlpha (veil_opacity w)) (set_is_peeking false w).
Proof.
  intros Hp. unfold on_shift_release. rewrite Hp. cbn.
  destruct (is_transparent_for_editing w); reflexivity.
Qed.

(** C8: a Shift press on a visible window that is not peeking enters
    ShiftPeek and applies peekThroughOpacity exactly when it is below
    veilOpacity; a Shift release while peeking leaves ShiftPeek and applies
    veilOpacity unless a draw gesture is in progress.  With veilOpacity 1.0
    and peekThroughOpacity 0.55 the applied opacity goes to 0.55 and back
    to 1.0. *)
Theorem shift_peek :
  (forall w, is_visible w = true -> is_peeking w = false ->
     let w' := on_shift_press w in
     is_peeking w' = true /\
     (peek_through_opacity w < veil_opacity w ->
      alpha (root w') = peek_through_opacity w) /\
     (veil_opacity w <= peek_through_opacity w ->
      alpha (root w') = alpha (root w))) /\
  (forall w, is_peeking w = true ->
     let w' := on_shift_release w in
     is_peeking w' = false /\
     (is_transparent_for_editing w = false ->
      alpha (root w') = veil_opacity w) /\
     (is_transparent_for_editing w = true ->
      alpha (root w') = alpha (root w))) /\
  (forall w, is_visible w = true -> is_peeking w = false ->
     is_transparent_for_editing w = false ->
     veil_opacity w = 1 -> peek_through_opacity w = 55 # 100 ->
     alpha (root (on_shift_press w)) = 55 # 100 /\
     alpha (root (on_shift_release (on_shift_press w))) = 1).
Proof.
  split; [|split].
  - intros w Hv Hp w'. subst w'. rewrite (on_shift_press_eq w Hv Hp).
    repeat split.
    + destruct (Qlt_bool _ _); reflexivity.
    + intros H. apply Qlt_bool_iff in H. rewrite H. reflexivity.
    + intros H. apply Qlt_bool_false in H. rewrite H. reflexivity.
  - intros w Hp w'. subst w'. rewrite (on_shift_release_eq w Hp).
    repeat split.
    + destruct (is_transparent_for_editing w); reflexivity.
    + intros H. rewrite H. reflexivity.
    + intros H. rewrite H. reflexivity.
  - intros w Hv Hp He Hveil Hpeek.
    rewrite (on_shift_press_eq w Hv Hp), Hveil, Hpeek. cbn.
    split; [reflexivity|].
    unfold on_shift_release. cbn. rewrite He. cbn. exact Hveil.
Qed.

Lemma shift_peek_witness :
  alpha (root (on_shift_press fresh_window)) = 55 # 100 /\
  alpha (root (on_shift_release (on_shift_press fresh_window))) = 1.
Proof.
  apply (proj2 (proj2 shift_peek) fresh_window); reflexivity.
Defined.

(** ** Pause and resume *)

Lemma toggle_pause_visible (w : Window) :
  is_visible w = true ->
  toggle_pause w = tk Withdraw (set_is_visible false w).
Proof. intros H. unfold toggle_pause. cbn. rewrite H. reflexivity. Qed.

Lemma toggle_pause_paused (w : Window) :
  is_visible w = false ->
  toggle_pause w =
  tks [SetAlpha (veil_opacity w); Deiconify; Lift; Topmost; FocusForce;
       SetAlpha (veil_opacity w); Update] (set_is_visible true w).
Proof. intros H. unfold toggle_pause. cbn. rewrite H. reflexivity. Qed.

Lemma run_after_tray (w : Window) :
  after_queue w = [] ->
  run_after (tray_toggle_pause w) = toggle_pause w /\
  run_after (tray_toggle_visibility w) = toggle_pause w.
Proof.
  intros H. destruct w. cbn in H. subst.
  split; reflexivity.
Qed.

(** C4, as the specification states it, fails for the pause shortcut: on a
    paused window it changes nothing. *)
Lemma pause_shortcut_does_not_resume :
  is_visible paused_window = false /\
  on_pause_shortcut paused_window = paused_window /\
  ~ spec_toggles on_pause_shortcut paused_window.
Proof.
  split; [reflexivity|]. split; [reflexivity|].
  intros [H _]. vm_compute in H. discriminate H.
Qed.

(** C4, amended: the canvas double-click and the tray entries run
    [toggle_pause], which hides a visible window and shows, raises and
    refocuses a paused one; when no peek mode is active the opacity it
    applies again is the effective one.  The pause shortcut only pauses:
    it hides a visible window and leaves a paused one as it is. *)
Theorem pause_toggle_handlers :
  (forall w, is_visible w = true ->
     is_visible (on_pause_shortcut w) = false /\
     mapped (root (on_pause_shortcut w)) = false) /\
  (forall w, is_visible w = false -> on_pause_shortcut w = w) /\
  (forall w,
     is_visible (toggle_pause w) = negb (is_visible w) /\
     (is_visible w = true -> mapped (root (toggle_pause w)) = false) /\
     (is_visible w = false ->
      shown_raised_refocused (root w) (root (toggle_pause w)) /\
      (is_peeking w = false -> is_transparent_for_editing w = false ->
       alpha (root (toggle_pause w))
       == spec_effective_opacity (toggle_pause w)))) /\
  (forall w, after_queue w = [] ->
     run_after (tray_toggle_pause w) = toggle_pause w /\
     run_after (tray_toggle_visibility w) = toggle_pause w).
Proof.
  split; [|split; [|split]].
  - intros w H. unfold on_pause_shortcut. rewrite H. split; reflexivity.
  - intros w H. unfold on_pause_shortcut. rewrite H. reflexivity.
  - intros w. split; [|split].
    + unfold toggle_pause. cbn. destruct (is_visible w); reflexivity.
    + intros H. rewrite (toggle_pause_visible w H). reflexivity.
    + intros H. rewrite (toggle_pause_paused w H). split.
      * split; [reflexivity|].
        exists [Update; SetAlpha (veil_opacity w); FocusForce; Topmost; Lift;
                Deiconify; SetAlpha (veil_opacity w)].
        split; [reflexivity|]. cbn. intuition.
      * intros Hp He. unfold spec_effective_opacity. cbn.
        rewrite Hp, He. reflexivity.
  - exact run_after_tray.
Qed.

Lemma pause_toggle_handlers_witness :
  is_visible (on_pause_shortcut fresh_window) = false /\
  on_pause_shortcut paused_window = paused_window /\
  alpha (root (toggle_pause paused_window))
  == spec_effective_opacity (toggle_pause paused_window) /\
  run_after (tray_toggle_pause fresh_window) = toggle_pause fresh_window.
Proof.
  split; [|split; [|split]].
  - apply (proj1 pause_toggle_handlers fresh_window). reflexivity.
  - apply (proj1 (proj2 pause_toggle_handlers) paused_window). reflexivity.
  - apply (proj1 (proj2 (proj2 pause_toggle_handlers)) paused_window);
      reflexivity.
  - apply (proj2 (proj2 (proj2 pause_toggle_handlers)) fresh_window).
    reflexivity.
Defined.

(** With no peek mode active, [toggle_pause] is the specification's
    toggle: the opacity it applies again is the effective one. *)
Lemma toggle_pause_spec_toggles (w : Window) :
  is_peeking w = false -> is_transparent_for_editing w = false ->
  spec_toggles toggle_pause w.
Proof.
  intros Hp He. unfold spec_toggles. split; [|split].
  - unfold toggle_pause. cbn. destruct (is_visible w); reflexivity.
  - intros H. rewrite (toggle_pause_visible w H). reflexivity.
  - intros H. rewrite (toggle_pause_paused w H). split.
    + split; [reflexivity|].
      exists [Update; SetAlpha (veil_opacity w); FocusForce; Topmost; Lift;
              Deiconify; SetAlpha (veil_opacity w)].
      split; [reflexivity|]. cbn. intuition.
    + unfold spec_effective_opacity. cbn. rewrite Hp, He. reflexivity.
Qed.

(** ** The opacity applied to the window *)

Lemma on_canvas_press_empty (ex ey : Z) (w : Window) :
  on_canvas_press false ex ey w =
  tk (SetAlpha peek_opacity)
     (set_is_transparent_for_editing true (set_draw_start ex ey w)).
Proof. reflexivity. Qed.

(** C3, as the specification states it, fails: with veilOpacity wheeled
    down to 0.50, below peekThroughOpacity 0.55, a Shift press enters
    ShiftPeek and the window keeps alpha 0.50. *)
Lemma shift_peek_keeps_lower_veil :
  let w := run hex_color fresh_window wheel_then_shift in
  is_transparent_for_editing w = false /\
  is_peeking w = true /\
  is_visible w = true /\
  alpha (root w) == 1 # 2 /\
  spec_effective_opacity w == 55 # 100 /\
  ~ alpha (root w) == spec_effective_opacity w.
Proof.
  cbv zeta. repeat split; try (vm_compute; reflexivity).
  intros H. vm_compute in H. discriminate H.
Qed.

(** A Shift press in the middle of a draw gesture replaces the editing
    opacity 0.30 by peekThroughOpacity; [on_shift_release] has the guard on
    [is_transparent_for_editing] that [on_shift_press] lacks. *)
Lemma shift_press_overrides_editing_peek :
  let w := run hex_color fresh_window draw_then_shift in
  is_transparent_for_editing w = true /\
  is_peeking w = true /\
  alpha (root w) = 55 # 100 /\
  spec_effective_opacity w = 3 # 10.
Proof. cbv zeta. repeat split; vm_compute; reflexivity. Qed.

(** C3, amended: the opacity is pushed by the handlers.  Starting a draw
    gesture applies editingPeekOpacity (0.30) whether or not ShiftPeek is
    active, and a Shift release during the gesture leaves it applied; a
    Shift press outside a draw gesture applies peekThroughOpacity when it is
    below veilOpacity and otherwise leaves the applied opacity as it is;
    with neither mode active [update_opacity] applies veilOpacity.  In the
    first three cases the applied value is the specification's effective
    opacity of the new state. *)
Theorem opacity_applied_by_handlers :
  (forall w ex ey,
     let w' := on_canvas_press false ex ey w in
     is_transparent_for_editing w' = true /\
     is_peeking w' = is_peeking w /\
     alpha (root w') = 3 # 10 /\
     alpha (root w') = spec_effective_opacity w') /\
  (forall w, is_transparent_for_editing w = true ->
     alpha (root (on_shift_release w)) = alpha (root w)) /\
  (forall w, is_visible w = true -> is_peeking w = false ->
     is_transparent_for_editing w = false ->
     let w' := on_shift_press w in
     (peek_through_opacity w < veil_opacity w ->
      alpha (root w') = peek_through_opacity w /\
      alpha (root w') = spec_effective_opacity w') /\
     (veil_opacity w <= peek_through_opacity w ->
      alpha (root w') = alpha (root w))) /\
  (forall w, is_peeking w = false -> is_transparent_for_editing w = false ->
     let w' := update_opacity w in
     alpha (root w') = veil_opacity w /\
     alpha (root w') = spec_effective_opacity w').
Proof.
  split; [|split; [|split]].
  - intros w ex ey w'. subst w'. rewrite on_canvas_press_empty.
    repeat split.
  - intros w He. unfold on_shift_release.
    destruct (is_peeking w); [|reflexivity].
    cbn. rewrite He. reflexivity.
  - intros w Hv Hp He w'. subst w'. rewrite (on_shift_press_eq w Hv Hp).
    split.
    + intros H. apply Qlt_bool_iff in H. rewrite H.
      unfold spec_effective_opacity. cbn. rewrite He. split; reflexivity.
    + intros H. apply Qlt_bool_false in H. rewrite H. reflexivity.
  - intros w Hp He w'. subst w'. unfold update_opacity. cbn.
    rewrite Hp, He. cbn. unfold spec_effective_opacity. cbn.
    rewrite Hp, He. split; reflexivity.
Qed.

Lemma opacity_applied_by_handlers_witness :
  alpha (root (on_shift_release (on_canvas_press false 100 100 fresh_window)))
  = alpha (root (on_canvas_press false 100 100 fresh_window)) /\
  alpha (root (on_shift_press fresh_window)) = 55 # 100 /\
  alpha (root (update_opacity fresh_window)) = 1.
Proof.
  split; [|split].
  - apply (proj1 (proj2 opacity_applied_by_handlers)
             (on_canvas_press false 100 100 fresh_window)).
    reflexivity.
  - apply (proj1 (proj2 (proj2 opacity_applied_by_handlers)) fresh_window);
      try reflexivity.
  - apply (proj2 (proj2 (proj2 opacity_applied_by_handlers)) fresh_window);
      reflexivity.
Defined.

(** ** The draw gesture *)

Lemma fold_drag_idle (drags : list (Z * Z)) (w : Window) :
  draw_idle w = true ->
  fold_left (fun w p => on_canvas_drag (fst p) (snd p) w) drags w = w.
Proof.
  intros H. induction drags as [|p drags IH]; [reflexivity|].
  cbn [fold_left]. unfold on_canvas_drag at 2. rewrite H. exact IH.
Qed.

(** C10: a press at (0, 0) on empty canvas stores the idle values of
    (draw_start_x, draw_start_y); every drag that follows returns at once,
    so no preview is drawn, and the release returns at once too: no
    FocusArea is created wherever the pointer is, and the window stays in
    the editing-peek state with the editing opacity applied. *)
Theorem press_at_origin_is_idle (w : Window) (drags : list (Z * Z))
  (rx ry : Z) :
  let w0 := on_canvas_press false 0 0 w in
  let w1 := fold_left (fun w p => on_canvas_drag (fst p) (snd p) w) drags w0 in
  let w2 := on_canvas_release rx ry w1 in
  (draw_start_x w0 = 0%Z /\ draw_start_y w0 = 0%Z) /\
  w1 = w0 /\
  drawing_rect w1 = drawing_rect w /\
  w2 = w0 /\
  draw_gesture 0 0 drags rx ry w = w0 /\
  focus_areas w2 = focus_areas w /\
  is_transparent_for_editing w2 = true /\
  alpha (root w2) = peek_opacity.
Proof.
  intros w0 w1 w2.
  assert (Hidle : draw_idle w0 = true) by reflexivity.
  assert (H1 : w1 = w0) by (apply fold_drag_idle; exact Hidle).
  assert (H2 : w2 = w0).
  { subst w2. rewrite H1. unfold on_canvas_release. rewrite Hidle.
    reflexivity. }
  split; [split; reflexivity|].
  split; [exact H1|].
  split; [rewrite H1; reflexivity|].
  split; [exact H2|].
  split; [exact H2|].
  rewrite H2. repeat split.
Qed.

Lemma on_canvas_drag_fields (ex ey : Z) (w : Window) :
  let w' := on_canvas_drag ex ey w in
  draw_start_x w' = draw_start_x w /\ draw_start_y w' = draw_start_y w /\
  focus_areas w' = focus_areas w /\
  (draw_idle w = false -> drawing_rect w' <> None).
Proof.
  unfold on_canvas_drag. destruct (draw_idle w).
  - repeat split. intros H. discriminate H.
  - repeat split. intros _. discriminate.
Qed.

Lemma fold_drag_fields (drags : list (Z * Z)) (w : Window) :
  let w' := fold_left (fun w p => on_canvas_drag (fst p) (snd p) w) drags w in
  draw_start_x w' = draw_start_x w /\ draw_start_y w' = draw_start_y w /\
  focus_areas w' = focus_areas w /\
  (draw_idle w = false -> drags <> [] -> drawing_rect w' <> None).
Proof.
  revert w. induction drags as [|p drags IH]; intros w.
  - cbn. repeat split. intros _ H. congruence.
  - cbn [fold_left]. cbv zeta.
    destruct (IH (on_canvas_drag (fst p) (snd p) w)) as (Hx & Hy & Hf & Hd).
    destruct (on_canvas_drag_fields (fst p) (snd p) w) as (Gx & Gy & Gf & Gd).
    rewrite Hx, Hy, Hf, Gx, Gy, Gf. repeat split.
    intros Hidle _. destruct drags as [|q drags].
    + cbn. apply Gd. exact Hidle.
    + apply Hd; [|discriminate].
      unfold draw_idle. rewrite Gx, Gy. exact Hidle.
Qed.

Lemma focus_areas_set_transparent_for_editing (b : bool) (w : Window) :
  focus_areas (set_transparent_for_editing b w) = focus_areas w.
Proof.
  unfold set_transparent_for_editing, update_opacity. cbn.
  destruct b; [reflexivity|].
  destruct (is_peeking w); cbn; [reflexivity|]. reflexivity.
Qed.

(** Away from the origin, and with at least one drag, the gesture does what
    C2 says: one FocusArea with the normalized bounds when they are large
    enough, none otherwise. *)
Lemma draw_gesture_away_from_origin (w : Window) (ax ay : Z)
  (drags : list (Z * Z)) (rx ry : Z) :
  (ax <> 0 \/ ay <> 0)%Z -> drags <> [] ->
  let p := spec_preview ax ay rx ry in
  let w' := draw_gesture ax ay drags rx ry w in
  (MIN_SIZE <= width p /\ MIN_SIZE <= height p ->
   exists fa, focus_areas w' = focus_areas w ++ [fa] /\
              coords_eq (rect fa) p) /\
  (width p < MIN_SIZE \/ height p < MIN_SIZE ->
   focus_areas w' = focus_areas w).
Proof.
  intros Hanchor Hdrags p w'.
  set (w0 := on_canvas_press false ax ay w).
  assert (Hidle : draw_idle w0 = false).
  { unfold draw_idle, w0. cbn.
    destruct Hanchor as [H | H]; apply Z.eqb_neq in H; rewrite H;
      [reflexivity | apply andb_false_r]. }
  destruct (fold_drag_fields drags w0) as (Hx & Hy & Hf & Hd).
  specialize (Hd Hidle Hdrags).
  set (w1 := fold_left (fun w p => on_canvas_drag (fst p) (snd p) w) drags w0)
    in *.
  assert (Hidle1 : draw_idle w1 = false).
  { unfold draw_idle. rewrite Hx, Hy. exact Hidle. }
  assert (Hw' : w' = on_canvas_release rx ry w1) by reflexivity.
  rewrite Hw'. unfold on_canvas_release. rewrite Hidle1.
  destruct (drawing_rect w1) as [d|] eqn:Ed; [|congruence].
  rewrite Hx, Hy. change (draw_start_x w0) with ax.
  change (draw_start_y w0) with ay.
  assert (Hwd : width p == inject_Z (Z.max ax rx - Z.min ax rx)).
  { unfold p, width, spec_preview. cbn [cx1 cx2].
    unfold Zminus. rewrite inject_Z_plus, inject_Z_opp. reflexivity. }
  assert (Hht : height p == inject_Z (Z.max ay ry - Z.min ay ry)).
  { unfold p, height, spec_preview. cbn [cy1 cy2].
    unfold Zminus. rewrite inject_Z_plus, inject_Z_opp. reflexivity. }
  split.
  - intros [Hw Hh]. rewrite Hwd in Hw. rewrite Hht in Hh.
    apply Qle_bool_iff in Hw. apply Qle_bool_iff in Hh.
    rewrite Hw, Hh. cbn [andb].
    rewrite focus_areas_set_transparent_for_editing.
    eexists. split.
    + cbn. rewrite Hf. reflexivity.
    + unfold coords_eq, p, spec_preview. cbn.
      repeat split; try reflexivity.
      * rewrite <- inject_Z_plus. f_equiv. lia.
      * rewrite <- inject_Z_plus. f_equiv. lia.
  - intros Hsmall.
    assert (Hb : Qle_bool MIN_SIZE (inject_Z (Z.max ax rx - Z.min ax rx))
                 && Qle_bool MIN_SIZE (inject_Z (Z.max ay ry - Z.min ay ry))
                 = false).
    { destruct Hsmall as [H | H].
      - rewrite Hwd in H. apply Qle_bool_false in H. rewrite H. reflexivity.
      - rewrite Hht in H. apply Qle_bool_false in H. rewrite H.
        apply andb_false_r. }
    rewrite Hb, focus_areas_set_transparent_for_editing. cbn. exact Hf.
Qed.

(** C2 at a gesture anchored in the top-left pixel: the normalized preview
    is 60 by 40, and no FocusArea is appended; the window is left in the
    editing-peek state. *)
Theorem draw_from_origin_creates_nothing :
  let w := draw_gesture 0 0 [(30, 20); (60, 40)]%Z 60 40 fresh_window in
  spec_preview 0 0 60 40 = mkCoords 0 0 60 40 /\
  MIN_SIZE <= width (spec_preview 0 0 60 40) /\
  MIN_SIZE <= height (spec_preview 0 0 60 40) /\
  focus_areas fresh_window = [] /\
  focus_areas w = [] /\
  is_transparent_for_editing w = true.
Proof.
  cbv zeta. repeat split; try (vm_compute; reflexivity);
    vm_compute; discriminate.
Qed.

(** The same gesture one pixel to the right creates the area. *)
Example draw_from_next_pixel :
  let w := draw_gesture 1 0 [(30, 20); (60, 40)]%Z 60 40 fresh_window in
  map rect (focus_areas w) = [mkCoords 1 0 (1 + 59) (0 + 40)] /\
  is_transparent_for_editing w = false.
Proof. cbv zeta. split; vm_compute; reflexivity. Qed.

(** ** Loading a configuration *)

(** C6, as the specification states it, fails: a file that parses but
    whose "focus_areas" is a number makes the load fail after the opacity
    was assigned and applied and the focus areas were deleted. *)
Lemma load_malformed_applies_fields :
  let w := set_config_file (Some (Json bad_config)) window_with_area in
  let r := load_config hex_color true w in
  spec_malformed (Json bad_config) = true /\
  snd r = Failed TypeError /\
  veil_opacity w = 1 /\ veil_opacity (fst r) = 1 # 2 /\
  alpha (root (fst r)) = 1 # 2 /\
  List.length (focus_areas w) = 1%nat /\ focus_areas (fst r) = [] /\
  ~ load_fails_unchanged hex_color true w.
Proof.
  cbv zeta. repeat split; try (vm_compute; reflexivity).
  intros [e H].
  apply (f_equal (fun p => veil_opacity (fst p))) in H.
  vm_compute in H. discriminate H.
Qed.

(** C6, amended: when the file is not JSON, or is JSON whose top-level
    value is not an object, loading fails, the error dialog is shown and
    the window state is otherwise unchanged. *)
Theorem load_not_an_object_unchanged (valid_color : string -> bool)
  (show_message : bool) (w : Window) (content : FileContent) :
  config_file w = Some content ->
  not_an_object content = true ->
  load_fails_unchanged valid_color show_message w /\
  exists e,
    snd (load_config valid_color show_message w) = Failed e /\
    calls (root (fst (load_config valid_color show_message w)))
    = ErrorDialog "Error" e :: calls (root w).
Proof.
  intros Hf Hn. unfold load_fails_unchanged, load_config. rewrite Hf.
  destruct content as [|v].
  - split; exists JSONDecodeError; [reflexivity | split; reflexivity].
  - destruct v; try discriminate Hn;
      (split; exists AttributeError; [reflexivity | split; reflexivity]).
Qed.

Lemma load_not_an_object_unchanged_witness :
  load_fails_unchanged hex_color true
    (set_config_file (Some NotJson) window_with_area) /\
  load_fails_unchanged hex_color true
    (set_config_file (Some (Json (JArr []))) window_with_area).
Proof.
  split.
  - apply (load_not_an_object_unchanged hex_color true
             (set_config_file (Some NotJson) window_with_area) NotJson);
      reflexivity.
  - apply (load_not_an_object_unchanged hex_color true
             (set_config_file (Some (Json (JArr []))) window_with_area)
             (Json (JArr [])));
      reflexivity.
Defined.

(** ** Saving, then loading *)

Lemma same_opacities_refl w : same_opacities w w.
Proof. split; reflexivity. Qed.

Lemma same_opacities_trans w1 w2 w3 :
  same_opacities w1 w2 -> same_opacities w2 w3 -> same_opacities w1 w3.
Proof. intros [A B] [C D]. split; congruence. Qed.

Lemma same_opacities_tks cs w : same_opacities w (tks cs w).
Proof.
  revert w. induction cs as [|c cs IH]; intros w; [apply same_opacities_refl|].
  apply same_opacities_trans with (tk c w); [split; reflexivity|].
  apply (IH (tk c w)).
Qed.

Lemma same_opacities_update_opacity w : same_opacities w (update_opacity w).
Proof.
  unfold update_opacity. cbn.
  destruct (negb (is_peeking w) && negb (is_transparent_for_editing w));
    split; reflexivity.
Qed.

Lemma same_opacities_delete fa w : same_opacities w (FocusArea_delete fa w).
Proof.
  unfold FocusArea_delete.
  destruct (current w) as [c|]; [destruct (Nat.eqb c (rect_id fa))|];
    split; reflexivity.
Qed.

Lemma same_opacities_delete_fold l w :
  same_opacities w (fold_left (fun w fa => FocusArea_delete fa w) l w).
Proof.
  revert w. induction l as [|fa l IH]; intros w; [apply same_opacities_refl|].
  cbn [fold_left].
  eapply same_opacities_trans; [apply (same_opacities_delete fa)|apply IH].
Qed.

Lemma same_opacities_delete_all w :
  same_opacities w (delete_all_focus_areas w).
Proof.
  unfold delete_all_focus_areas.
  eapply same_opacities_trans; [apply same_opacities_delete_fold|].
  split; reflexivity.
Qed.

Lemma focus_areas_delete_all w : focus_areas (delete_all_focus_areas w) = [].
Proof. reflexivity. Qed.

Lemma load_areas_cons_rect (c : Coords) (rest : list json) (w : Window) :
  load_areas (coords_json c :: rest) w = load_areas rest (append_area c w).
Proof. destruct c. reflexivity. Qed.

Lemma rect_append_area (c : Coords) (w : Window) :
  same_opacities w (append_area c w) /\
  exists fa, focus_areas (append_area c w) = focus_areas w ++ [fa] /\
             coords_eq (rect fa) c.
Proof.
  split; [split; reflexivity|].
  eexists. split; [reflexivity|].
  unfold coords_eq. cbn. repeat split; try reflexivity; ring.
Qed.

(** The loop restores every saved rectangle, in order. *)
Lemma load_areas_saved (fas : list FocusArea) (w : Window) :
  exists w' news,
    load_areas (map (fun fa => coords_json (get_coords fa)) fas) w
    = (Ok tt, w') /\
    same_opacities w w' /\
    root w' = root w /\
    focus_areas w' = focus_areas w ++ news /\
    Forall2 coords_eq (map rect news) (map rect fas).
Proof.
  revert w. induction fas as [|fa fas IH]; intros w.
  - exists w, []. cbn. rewrite app_nil_r.
    repeat split; constructor.
  - cbn [map]. rewrite load_areas_cons_rect.
    destruct (rect_append_area (get_coords fa) w) as (Hs & fa' & Hfa & Hc).
    destruct (IH (append_area (get_coords fa) w))
      as (w' & news & Hrun & Hs' & Hroot & Hfs & Hall).
    exists w', (fa' :: news). split; [exact Hrun|].
    split; [exact (same_opacities_trans _ _ _ Hs Hs')|].
    split; [rewrite Hroot; reflexivity|].
    split.
    + rewrite Hfs, Hfa, <- app_assoc. reflexivity.
    + cbn [map]. constructor; assumption.
Qed.

(** The [try] block on the file that [save_config] wrote for [w0]: the
    four settings are assigned, the colour is configured, the areas are
    deleted and the saved rectangles are loaded. *)
Lemma load_body_saved (valid_color : string -> bool) (show_message : bool)
  (w0 w : Window) :
  let assigned :=
    set_show_quick_start_on_startup (show_quick_start_on_startup w0)
      (set_peek_through_opacity (peek_through_opacity w0)
         (set_veil_opacity (veil_opacity w0)
            (set_veil_color (veil_color w0) w))) in
  load_body valid_color show_message (Json (config_of w0)) w =
  if valid_color (veil_color w0) then
    match
      load_areas (map (fun fa => coords_json (get_coords fa)) (focus_areas w0))
        (delete_all_focus_areas
           (update_opacity
              (tks [ConfigureBg (veil_color w0); CanvasBg (veil_color w0)]
                   assigned)))
    with
    | (Ok _, w') =>
      (Ok tt, if show_message then tk (InfoDialog "Loaded") w' else w')
    | (Raise e, w') => (Raise e, w')
    | (OutOfModel, w') => (OutOfModel, w')
    end
  else (Raise TclError, assigned).
Proof.
  cbv zeta. unfold load_body, bind, lift, modify, config_of.
  cbn [json_load py_get assoc String.eqb Ascii.eqb Bool.eqb as_str as_num
       as_bool py_seq].
  destruct (valid_color (veil_color w0)); [|reflexivity].
  destruct (load_areas _ _) as [[[]| |] w']; try reflexivity.
  destruct show_message; reflexivity.
Qed.

Lemma Forall2_coords_eq_refl (l : list Coords) : Forall2 coords_eq l l.
Proof.
  induction l as [|c l IH]; constructor; [|exact IH].
  unfold coords_eq. repeat split; reflexivity.
Qed.

(** Reloaded in the window that saved it, the rectangle that was drawn
    comes back. *)
Example save_load_example :
  map rect (focus_areas
              (fst (load_config hex_color true
                      (save_config true window_with_area))))
  = [mkCoords 100 100 (100 + (300 - 100)) (100 + (250 - 100))].
Proof. vm_compute. reflexivity. Qed.

(** * Whole-number coordinates *)

Lemma whole_iff (q : Q) : whole q <-> exists z : Z, q == inject_Z z.
Proof.
  unfold whole, is_whole, Qeq, inject_Z. cbn [Qnum Qden].
  rewrite Z.eqb_eq. split.
  - intros H. exists (Qnum q / Zpos (Qden q))%Z.
    apply Z.div_exact in H; [|discriminate]. lia.
  - intros [z H]. rewrite Z.mul_1_r in H. rewrite H. apply Z.mod_mul.
    discriminate.
Qed.

Lemma whole_inject_Z (z : Z) : whole (inject_Z z).
Proof. apply whole_iff. exists z. reflexivity. Qed.


Lemma whole_plus (a : Q) (z : Z) : whole a -> whole (a + inject_Z z).
Proof.
  intros H. apply whole_iff in H. destruct H as [n H].
  apply whole_iff. exists (n + z)%Z. rewrite H, inject_Z_plus. reflexivity.
Qed.

Lemma whole_rect_canvas_move (c : Coords) (dx dy : Z) :
  whole_rect c -> whole_rect (canvas_move c dx dy).
Proof.
  intros (H1 & H2 & H3 & H4). unfold whole_rect, canvas_move. cbn.
  repeat split; apply whole_plus; assumption.
Qed.




(** A drag with the pointer keeps whole-number coordinates whole. *)
Lemma on_drag_whole (fa : FocusArea) (ex ey : Z) :
  whole_rect (rect fa) -> whole_rect (rect (on_drag fa ex ey)).
Proof.
  intros Hw. unfold on_drag.
  destruct (is_dragging fa); cbn [negb]; [|exact Hw].
  destruct (rect fa) as [x1 y1 x2 y2] eqn:Hr.
  destruct (resize_mode fa) as [m|]; [|rewrite Hr; exact Hw].
  destruct (String.eqb m "move").
  - rewrite rect_set_drag_start. cbn [rect set_rect].
    apply whole_rect_canvas_move. exact Hw.
  - destruct (truthy (Some m)); [|rewrite Hr; exact Hw].
    match goal with
    | |- context [if ?a && ?b then _ else _] =>
      destruct (a && b); [|rewrite Hr; exact Hw]
    end.
    rewrite rect_set_drag_start, rect_update_handle_position.
    cbn [rect set_rect]. destruct Hw as (H1 & H2 & H3 & H4).
    cbn [cx1 cy1 cx2 cy2] in H1, H2, H3, H4.
    unfold whole_rect. cbn [cx1 cy1 cx2 cy2].
    repeat split; match goal with |- whole (if ?c then _ else _) => destruct c end; try assumption; apply whole_inject_Z.
Qed.

(** * Further properties of class FocusArea *)

Lemma width_canvas_move (c : Coords) (dx dy : Z) :
  width (canvas_move c dx dy) == width c /\
  height (canvas_move c dx dy) == height c.
Proof. unfold width, height, canvas_move. cbn. split; ring. Qed.

Lemma big_enough_canvas_move (c : Coords) (dx dy : Z) :
  big_enough c -> big_enough (canvas_move c dx dy).
Proof.
  unfold big_enough. intros [Hw Hh].
  destruct (width_canvas_move c dx dy) as [Ew Eh].
  rewrite Ew, Eh. split; assumption.
Qed.

(** X1: whatever the interaction state and the pointer, [on_drag] keeps a
    rectangle with whole-number coordinates that is at least MIN_SIZE wide
    and high that large, and its coordinates whole. *)
Theorem on_drag_keeps_min_size (fa : FocusArea) (ex ey : Z) :
  whole_rect (rect fa) ->
  big_enough (rect fa) ->
  big_enough (rect (on_drag fa ex ey)) /\
  whole_rect (rect (on_drag fa ex ey)).
Proof.
  intros Hwhole Hbig. split; [|exact (on_drag_whole fa ex ey Hwhole)].
  clear Hwhole. unfold on_drag.
  destruct (is_dragging fa); cbn [negb]; [|exact Hbig].
  destruct (rect fa) as [x1 y1 x2 y2] eqn:Hr.
  destruct (resize_mode fa) as [m|]; [|rewrite Hr; exact Hbig].
  destruct (String.eqb m "move").
  - rewrite rect_set_drag_start. cbn [rect set_rect].
    apply big_enough_canvas_move. exact Hbig.
  - destruct (truthy (Some m)); [|rewrite Hr; exact Hbig].
    match goal with
    | |- context [if ?a && ?b then _ else _] =>
      destruct a eqn:Ea; [destruct b eqn:Eb|]; cbn [andb];
        try (rewrite Hr; exact Hbig)
    end.
    rewrite rect_set_drag_start, rect_update_handle_position.
    cbn [rect set_rect]. unfold big_enough, width, height. cbn [cx1 cx2 cy1 cy2].
    split; apply Qle_bool_iff; assumption.
Qed.

Lemma on_drag_keeps_min_size_witness :
  big_enough (rect (on_drag area_se 105 108)) /\
  whole_rect (rect (on_drag area_se 105 108)).
Proof.
  apply (on_drag_keeps_min_size area_se 105 108).
  - repeat split.
  - split; vm_compute; discriminate.
Defined.

Lemma inject_Z_nonzero (z : Z) : z <> 0%Z -> ~ inject_Z z == 0.
Proof.
  intros Hz H. apply Hz. unfold Qeq, inject_Z in H. cbn in H. lia.
Qed.

(** X2: a drag on the body of an area (mode "move") whose rectangle has
    whole-number coordinates translates the rectangle by the pointer
    displacement and leaves its size alone, but the handle oval is not
    moved: the rectangle is elsewhere as soon as the pointer has moved,
    and a handle that sat on the golden point is off it. *)
Theorem body_move_leaves_handle_behind (fa : FocusArea) (ex ey : Z) :
  whole_rect (rect fa) ->
  is_dragging fa = true ->
  resize_mode fa = Some "move"%string ->
  let fa' := on_drag fa ex ey in
  let dx := (ex - drag_start_x fa)%Z in
  let dy := (ey - drag_start_y fa)%Z in
  rect fa' = canvas_move (rect fa) dx dy /\
  whole_rect (rect fa') /\
  width (rect fa') == width (rect fa) /\
  height (rect fa') == height (rect fa) /\
  handle fa' = handle fa /\
  (drag_start_x fa' = ex /\ drag_start_y fa' = ey) /\
  ((dx <> 0 \/ dy <> 0)%Z ->
   ~ coords_eq (rect fa') (rect fa) /\
   (handle_aligned fa -> ~ handle_aligned fa')).
Proof.
  intros Hwhole Hd Hm fa' dx dy.
  assert (E : fa' = set_drag_start ex ey
                      (set_rect (canvas_move (rect fa) dx dy) fa)).
  { unfold fa', on_drag. rewrite Hd, Hm. cbn.
    destruct (rect fa); reflexivity. }
  rewrite E. cbn [rect handle set_drag_start set_rect drag_start_x drag_start_y].
  destruct (width_canvas_move (rect fa) dx dy) as [Ew Eh].
  split; [reflexivity|].
  split; [exact (whole_rect_canvas_move (rect fa) dx dy Hwhole)|].
  split; [exact Ew|]. split; [exact Eh|]. split; [reflexivity|].
  split; [split; reflexivity|].
  intros Hmoved. split.
  - intros (E1 & E2 & _). unfold canvas_move in E1, E2.
    cbn [cx1 cy1] in E1, E2.
    destruct Hmoved as [H | H]; apply inject_Z_nonzero in H; apply H; lra.
  - intros [Ax Ay] [Bx By].
    cbn [rect handle set_drag_start set_rect] in Bx, By.
    rewrite Eh in By.
    unfold canvas_move in Bx, By. cbn [cx1 cy1] in Bx, By.
    destruct Hmoved as [H | H]; apply inject_Z_nonzero in H; apply H.
    + rewrite Ax in Bx. lra.
    + rewrite Ay in By. lra.
Qed.

(** The area of scenario A, grabbed in its middle. *)
Lemma body_move_leaves_handle_behind_witness :
  let fa := on_press (FocusArea_init 1 2 100 100 200 150) 200 175 in
  rect (on_drag fa 210 175) = canvas_move (rect fa) 10 0 /\
  handle (on_drag fa 210 175) = handle fa /\
  ~ coords_eq (rect (on_drag fa 210 175)) (rect fa) /\
  ~ handle_aligned (on_drag fa 210 175).
Proof.
  cbv zeta.
  pose proof (body_move_leaves_handle_behind
                (on_press (FocusArea_init 1 2 100 100 200 150) 200 175)
                210 175) as H.
  cbv zeta in H. destruct H as (Hr & _ & _ & _ & Hh & _ & Hn).
  - repeat split.
  - reflexivity.
  - reflexivity.
  - split; [exact Hr|]. split; [exact Hh|].
    destruct Hn as [Hm Ha]; [left; vm_compute; discriminate|].
    split; [exact Hm|]. apply Ha. split; vm_compute; reflexivity.
Defined.












(** X5: in an area less than 15 wide and at most 19 high every point of
    the rectangle is classified "move": the handle zone covers it all, and
    no press inside it can start a resize. *)
Theorem small_area_only_moves (fa : FocusArea) (px py : Q) :
  width (rect fa) < 15 -> height (rect fa) <= 19 ->
  cx1 (rect fa) <= px <= cx2 (rect fa) ->
  cy1 (rect fa) <= py <= cy2 (rect fa) ->
  get_resize_mode fa px py = Some "move"%string.
Proof.
  unfold width, height, get_resize_mode.
  destruct (rect fa) as [x1 y1 x2 y2]. cbn [cx1 cx2 cy1 cy2].
  intros Hw Hh [Hx1 Hx2] [Hy1 Hy2].
  assert (H1 : Qlt_bool (Qabs (px - x1)) (resize_handle_size + 5) = true).
  { apply Qlt_bool_iff. unfold resize_handle_size.
    apply Qabs_case; intros; lra. }
  assert (H2 : Qle_bool (y1 + (y2 - y1) * golden - move_handle_size
                         - move_handle_buffer) py = true).
  { apply Qle_bool_iff.
    unfold golden, move_handle_size, move_handle_buffer. lra. }
  assert (H3 : Qle_bool py (y1 + (y2 - y1) * golden + move_handle_size
                            + move_handle_buffer) = true).
  { apply Qle_bool_iff.
    unfold golden, move_handle_size, move_handle_buffer. lra. }
  rewrite H1, H2, H3. reflexivity.
Qed.

Lemma small_area_only_moves_witness :
  get_resize_mode (FocusArea_init 1 2 50 50 10 10) 60 60
  = Some "move"%string.
Proof.
  apply (small_area_only_moves (FocusArea_init 1 2 50 50 10 10) 60 60);
    try (vm_compute; reflexivity); try (vm_compute; discriminate);
    split; vm_compute; discriminate.
Defined.

Lemma Qabs_zero_lt (a b : Q) : 0 < b -> Qlt_bool (Qabs (a - a)) b = true.
Proof.
  intros H. apply Qlt_bool_iff. apply Qabs_case; intros; lra.
Qed.

Lemma Qabs_far (a b c : Q) : c <= b - a -> Qlt_bool (Qabs (a - b)) c = false.
Proof.
  intros H. apply Qlt_bool_false. apply Qabs_case; intros; lra.
Qed.

Lemma Qabs_far' (a b c : Q) : c <= a - b -> Qlt_bool (Qabs (a - b)) c = false.
Proof.
  intros H. apply Qlt_bool_false. apply Qabs_case; intros; lra.
Qed.

(** X6: what a press exactly on a corner starts, for an area at least 15
    wide and MIN_SIZE high.  The right corners resize ("ne", "se").  The
    left corners resize only when they lie outside the handle zone: the
    top-left one when 0.382 * height > 12, the bottom-left one when
    0.618 * height > 12; otherwise they move the area. *)
Theorem corner_modes (fa : FocusArea) :
  15 <= width (rect fa) -> MIN_SIZE <= height (rect fa) ->
  let r := rect fa in
  get_resize_mode fa (cx2 r) (cy1 r) = Some "ne"%string /\
  get_resize_mode fa (cx2 r) (cy2 r) = Some "se"%string /\
  get_resize_mode fa (cx1 r) (cy1 r) =
    (if Qlt_bool 12 (golden * height r) then Some "nw" else Some "move")%string /\
  get_resize_mode fa (cx1 r) (cy2 r) =
    (if Qlt_bool 12 ((1 - golden) * height r)
     then Some "sw" else Some "move")%string.
Proof.
  unfold width, height, get_resize_mode, MIN_SIZE.
  destruct (rect fa) as [x1 y1 x2 y2]. cbn [cx1 cx2 cy1 cy2].
  intros Hw Hh.
  assert (Z0 : forall a, Qlt_bool (Qabs (a - a)) resize_handle_size = true)
    by (intros; apply Qabs_zero_lt; reflexivity).
  assert (Z1 : forall a, Qlt_bool (Qabs (a - a)) (resize_handle_size + 5) = true)
    by (intros; apply Qabs_zero_lt; reflexivity).
  assert (Fx : Qlt_bool (Qabs (x2 - x1)) (resize_handle_size + 5) = false)
    by (apply Qabs_far'; unfold resize_handle_size; lra).
  assert (Fx' : Qlt_bool (Qabs (x2 - x1)) resize_handle_size = false)
    by (apply Qabs_far'; unfold resize_handle_size; lra).
  assert (Gx : Qlt_bool (Qabs (x1 - x2)) resize_handle_size = false)
    by (apply Qabs_far; unfold resize_handle_size; lra).
  assert (Fy : Qlt_bool (Qabs (y2 - y1)) resize_handle_size = false)
    by (apply Qabs_far'; unfold resize_handle_size; lra).
  assert (Gy : Qlt_bool (Qabs (y1 - y2)) resize_handle_size = false)
    by (apply Qabs_far; unfold resize_handle_size; lra).
  repeat split.
  - rewrite Fx, Fx', !Z0, Gy. reflexivity.
  - rewrite Fx, Fx', !Z0, Fy. reflexivity.
  - rewrite Z1, !Z0, Gx, Gy. cbn [andb].
    assert (Hup : Qle_bool y1 (y1 + (y2 - y1) * golden + move_handle_size
                               + move_handle_buffer) = true).
    { apply Qle_bool_iff.
      unfold golden, move_handle_size, move_handle_buffer. lra. }
    rewrite Hup, andb_true_r.
    destruct (Qlt_bool 12 (golden * (y2 - y1))) eqn:E.
    + apply Qlt_bool_iff in E.
      assert (Hlo : Qle_bool (y1 + (y2 - y1) * golden - move_handle_size
                              - move_handle_buffer) y1 = false).
      { apply Qle_bool_false.
        unfold golden, move_handle_size, move_handle_buffer in *. lra. }
      rewrite Hlo. reflexivity.
    + apply Qlt_bool_false in E.
      assert (Hlo : Qle_bool (y1 + (y2 - y1) * golden - move_handle_size
                              - move_handle_buffer) y1 = true).
      { apply Qle_bool_iff.
        unfold golden, move_handle_size, move_handle_buffer in *. lra. }
      rewrite Hlo. reflexivity.
  - rewrite Z1, !Z0, Gx, Fy. cbn [andb].
    assert (Hlo : Qle_bool (y1 + (y2 - y1) * golden - move_handle_size
                            - move_handle_buffer) y2 = true).
    { apply Qle_bool_iff.
      unfold golden, move_handle_size, move_handle_buffer. lra. }
    rewrite Hlo. cbn [andb].
    destruct (Qlt_bool 12 ((1 - golden) * (y2 - y1))) eqn:E.
    + apply Qlt_bool_iff in E.
      assert (Hup : Qle_bool y2 (y1 + (y2 - y1) * golden + move_handle_size
                                 + move_handle_buffer) = false).
      { apply Qle_bool_false.
        unfold golden, move_handle_size, move_handle_buffer in *. lra. }
      rewrite Hup. reflexivity.
    + apply Qlt_bool_false in E.
      assert (Hup : Qle_bool y2 (y1 + (y2 - y1) * golden + move_handle_size
                                 + move_handle_buffer) = true).
      { apply Qle_bool_iff.
        unfold golden, move_handle_size, move_handle_buffer in *. lra. }
      rewrite Hup. reflexivity.
Qed.

Lemma corner_modes_witness :
  let fa := FocusArea_init 1 2 100 100 200 30 in
  get_resize_mode fa (cx2 (rect fa)) (cy2 (rect fa)) = Some "se"%string /\
  get_resize_mode fa (cx1 (rect fa)) (cy1 (rect fa)) = Some "move"%string.
Proof.
  cbv zeta.
  destruct (corner_modes (FocusArea_init 1 2 100 100 200 30))
    as (_ & Hse & Hnw & _); try (vm_compute; discriminate).
  split; [exact Hse | exact Hnw].
Defined.

Lemma get_resize_mode_is_mode (fa : FocusArea) (px py : Q) :
  exists m, get_resize_mode fa px py = Some (mode_name m).
Proof.
  unfold get_resize_mode. destruct (rect fa) as [x1 y1 x2 y2].
  repeat match goal with
         | |- context [if ?c then _ else _] => destruct c
         end;
    first [ now exists MMove | now exists MNW | now exists MNE
          | now exists MSW | now exists MSE | now exists MN
          | now exists MS | now exists MW | now exists ME ].
Qed.

(** X7: moving the pointer over an area that is not being dragged always
    sets one of the five resize or move cursors, never the default
    "arrow"; while the area is dragged the cursor is left alone. *)
Theorem on_motion_cursor (fa : FocusArea) (ex ey : Z) :
  (is_dragging fa = false ->
   exists c, on_motion fa ex ey = Some c /\ c <> "arrow"%string /\
             In c ["size_nw_se"; "size_ne_sw"; "size_ns"; "size_we";
                   "fleur"]%string) /\
  (is_dragging fa = true -> on_motion fa ex ey = None).
Proof.
  unfold on_motion. split; intros H; rewrite H; cbn [negb]; [|reflexivity].
  destruct (get_resize_mode_is_mode fa (inject_Z ex) (inject_Z ey)) as [m Hm].
  rewrite Hm. eexists. split; [reflexivity|].
  destruct m; cbn; split; try discriminate; intuition.
Qed.

Lemma on_motion_cursor_witness :
  on_motion (FocusArea_init 1 2 100 100 200 150) 300 250
  = Some "size_nw_se"%string /\
  on_motion area_se 300 250 = None.
Proof.
  split.
  - destruct (proj1 (on_motion_cursor (FocusArea_init 1 2 100 100 200 150)
                       300 250) eq_refl) as (c & Hc & _).
    rewrite Hc. vm_compute in Hc. symmetry. exact Hc.
  - apply (proj2 (on_motion_cursor area_se 300 250)). reflexivity.
Defined.

(** * Further properties of class Focus_AreaWindow *)

(** ** Opacity changes *)

Lemma clamp_in_range (x : Q) : in_range (py_max (1 # 100) (py_min 1 x)).
Proof.
  unfold in_range, py_max, py_min.
  destruct (Qlt_bool x 1) eqn:E1.
  - apply Qlt_bool_iff in E1.
    destruct (Qlt_bool (1 # 100) x) eqn:E2.
    + apply Qlt_bool_iff in E2. lra.
    + lra.
  - destruct (Qlt_bool (1 # 100) 1) eqn:E2; lra.
Qed.

Lemma veil_opacity_update_opacity (w : Window) :
  veil_opacity (update_opacity w) = veil_opacity w.
Proof. apply same_opacities_update_opacity. Qed.

Lemma veil_opacity_on_mousewheel (d : Z) (w : Window) :
  veil_opacity (on_mousewheel d w) =
  if Qlt_bool 0 (inject_Z d / 120)
  then py_min 1 (veil_opacity w + (1 # 100))
  else py_max (1 # 100) (veil_opacity w - (1 # 100)).
Proof.
  unfold on_mousewheel. rewrite veil_opacity_update_opacity.
  destruct (Qlt_bool 0 (inject_Z d / 120)); reflexivity.
Qed.

Lemma veil_opacity_change_opacity (delta : Q) (w : Window) :
  veil_opacity (change_opacity delta w) =
  py_max (1 # 100) (py_min 1 (veil_opacity w + delta)).
Proof.
  unfold change_opacity. cbn.
  destruct (negb (is_peeking w) && negb (is_transparent_for_editing w));
    reflexivity.
Qed.

Lemma peek_change_peek_through_opacity (delta : Q) (w : Window) :
  peek_through_opacity (change_peek_through_opacity delta w) =
  py_max (1 # 100) (py_min 1 (peek_through_opacity w + delta)).
Proof.
  unfold change_peek_through_opacity. cbn.
  destruct (is_peeking w); reflexivity.
Qed.

(** X8: the veil opacity never leaves [0.01, 1.0] through the wheel, and
    [change_opacity] and [change_peek_through_opacity] clamp into that
    interval whatever the old value and the delta. *)
Theorem opacity_clamped :
  (forall d w, in_range (veil_opacity w) ->
     in_range (veil_opacity (on_mousewheel d w))) /\
  (forall delta w, in_range (veil_opacity (change_opacity delta w))) /\
  (forall delta w,
     in_range (peek_through_opacity (change_peek_through_opacity delta w))).
Proof.
  split; [|split].
  - intros d w [Hlo Hhi]. rewrite veil_opacity_on_mousewheel.
    unfold in_range, py_min, py_max.
    destruct (Qlt_bool 0 (inject_Z d / 120)).
    + destruct (Qlt_bool (veil_opacity w + (1 # 100)) 1) eqn:E.
      * apply Qlt_bool_iff in E. lra.
      * lra.
    + destruct (Qlt_bool (1 # 100) (veil_opacity w - (1 # 100))) eqn:E.
      * apply Qlt_bool_iff in E. lra.
      * lra.
  - intros. rewrite veil_opacity_change_opacity. apply clamp_in_range.
  - intros. rewrite peek_change_peek_through_opacity. apply clamp_in_range.
Qed.

Lemma opacity_clamped_witness :
  in_range (veil_opacity (on_mousewheel 120 fresh_window)).
Proof.
  apply (proj1 opacity_clamped 120%Z fresh_window).
  split; vm_compute; discriminate.
Defined.

(** X9: within floating tolerance (exactly, over the rationals of the
    model) one wheel notch up and one notch down cancel out, as long as
    the first step is not cut off at the end of the range; a wheel event
    with delta 0 counts as a notch down. *)
Theorem wheel_steps_cancel (w : Window) (up down : Z) :
  (0 < up)%Z -> (down <= 0)%Z -> in_range (veil_opacity w) ->
  (veil_opacity w <= 99 # 100 ->
   veil_opacity (on_mousewheel down (on_mousewheel up w)) == veil_opacity w) /\
  (2 # 100 <= veil_opacity w ->
   veil_opacity (on_mousewheel up (on_mousewheel down w)) == veil_opacity w).
Proof.
  intros Hup Hdown [Hlo Hhi].
  assert (Eu : Qlt_bool 0 (inject_Z up / 120) = true).
  { apply Qlt_bool_iff. unfold Qlt, Qdiv, Qmult, Qinv, inject_Z. cbn. lia. }
  assert (Ed : Qlt_bool 0 (inject_Z down / 120) = false).
  { apply Qlt_bool_false. unfold Qle, Qdiv, Qmult, Qinv, inject_Z. cbn. lia. }
  split; intros H; rewrite !veil_opacity_on_mousewheel, Eu, Ed;
    unfold py_min, py_max.
  - destruct (Qlt_bool (veil_opacity w + (1 # 100)) 1) eqn:E1.
    + destruct (Qlt_bool (1 # 100) (veil_opacity w + (1 # 100) - (1 # 100)))
        eqn:E2.
      * ring.
      * apply Qlt_bool_false in E2. lra.
    + apply Qlt_bool_false in E1.
      destruct (Qlt_bool (1 # 100) (1 - (1 # 100))) eqn:E2.
      * lra.
      * apply Qlt_bool_false in E2. lra.
  - destruct (Qlt_bool (1 # 100) (veil_opacity w - (1 # 100))) eqn:E1.
    + destruct (Qlt_bool (veil_opacity w - (1 # 100) + (1 # 100)) 1) eqn:E2.
      * ring.
      * apply Qlt_bool_false in E2. lra.
    + apply Qlt_bool_false in E1.
      destruct (Qlt_bool ((1 # 100) + (1 # 100)) 1) eqn:E2.
      * lra.
      * apply Qlt_bool_false in E2. lra.
Qed.

Lemma wheel_steps_cancel_witness :
  veil_opacity (on_mousewheel 120 (on_mousewheel 0 fresh_window))
  == veil_opacity fresh_window.
Proof.
  apply (wheel_steps_cancel fresh_window 120 0);
    try (vm_compute; reflexivity); try (vm_compute; discriminate).
  split; vm_compute; discriminate.
Defined.

Lemma show_input_dialog_bounds (lo hi : Z) (user : list DialogAction)
  (v : Z) :
  show_input_dialog lo hi user = Some v ->
  (lo <= v <= hi)%Z /\ In (ClickOk (Some v)) user.
Proof.
  induction user as [|a user IH]; cbn; [discriminate|].
  destruct a as [[value|]|].
  - destruct ((lo <=? value)%Z && (value <=? hi)%Z) eqn:E.
    + intros H. injection H as <-.
      apply andb_true_iff in E. destruct E as [E1 E2].
      apply Z.leb_le in E1. apply Z.leb_le in E2. split; [lia|now left].
    + intros H. destruct (IH H). split; [assumption|now right].
  - intros H. destruct (IH H). split; [assumption|now right].
  - discriminate.
Qed.

Lemma percent_in_range (v : Z) : (1 <= v <= 100)%Z -> in_range (inject_Z v / 100).
Proof.
  intros [H1 H2]. unfold in_range, Qle, Qdiv, Qmult, Qinv, inject_Z. cbn. lia.
Qed.

(** X10: the opacity dialogs only ever store a percentage the user
    entered that passed the bounds test 1..100: the stored opacity is that
    number over 100, within [0.01, 1.0]; text that is not an integer and
    numbers out of bounds are skipped, and on Cancel or a closed dialog
    the window is unchanged. *)
Theorem opacity_dialog_result (user : list DialogAction) (w : Window) :
  (show_input_dialog 1 100 user = None ->
   set_opacity_dialog user w = w /\
   set_peek_through_opacity_dialog user w = w) /\
  (forall v, show_input_dialog 1 100 user = Some v ->
     In (ClickOk (Some v)) user /\
     veil_opacity (set_opacity_dialog user w) = inject_Z v / 100 /\
     in_range (veil_opacity (set_opacity_dialog user w)) /\
     peek_through_opacity (set_peek_through_opacity_dialog user w)
     = inject_Z v / 100 /\
     in_range (peek_through_opacity (set_peek_through_opacity_dialog user w))).
Proof.
  split.
  - intros H. unfold set_opacity_dialog, set_peek_through_opacity_dialog.
    rewrite H. split; reflexivity.
  - intros v H. destruct (show_input_dialog_bounds 1 100 user v H) as [Hb Hin].
    unfold set_opacity_dialog, set_peek_through_opacity_dialog. rewrite H.
    cbn.
    assert (E1 : forall (b : bool) (x y : Window),
               veil_opacity x = veil_opacity y ->
               veil_opacity (if b then x else y) = veil_opacity y)
      by (intros []; auto).
    assert (E2 : forall (b : bool) (x y : Window),
               peek_through_opacity x = peek_through_opacity y ->
               peek_through_opacity (if b then x else y)
               = peek_through_opacity y)
      by (intros []; auto).
    rewrite E1, E2 by reflexivity. cbn.
    repeat split; try assumption; apply percent_in_range; assumption.
Qed.

(** The user types "abc", then 250, then 40. *)
Lemma opacity_dialog_result_witness :
  veil_opacity (set_opacity_dialog
                  [ClickOk None; ClickOk (Some 250%Z); ClickOk (Some 40%Z)]
                  fresh_window) = 40 / 100 /\
  set_opacity_dialog [ClickOk (Some 0%Z); ClickCancel; ClickOk (Some 40%Z)]
                     fresh_window = fresh_window.
Proof.
  split.
  - apply (proj2 (opacity_dialog_result
                    [ClickOk None; ClickOk (Some 250%Z); ClickOk (Some 40%Z)]
                    fresh_window) 40%Z).
    reflexivity.
  - exact (proj1 (proj1 (opacity_dialog_result
                           [ClickOk (Some 0%Z); ClickCancel;
                            ClickOk (Some 40%Z)]
                           fresh_window) eq_refl)).
Defined.

(** ** The veil colour *)

(** X11: [choose_color] never makes the veil colour equal to the
    transparency key: a pick that is the key in any letter case is refused
    with a warning and the window is untouched; any other pick is stored in
    upper case. *)
Theorem choose_color_avoids_key (valid_color : string -> bool)
  (picked : option string) (s : Session) :
  veil_color (win s) <> transparency_key ->
  let s' := choose_color valid_color picked s in
  veil_color (win s') <> transparency_key /\
  (forall c, picked = Some c -> upper c = transparency_key ->
     win s' = win s /\ warnings s' = "Color Conflict"%string :: warnings s) /\
  (forall c, picked = Some c -> c <> ""%string ->
     upper c <> transparency_key -> veil_color (win s') = upper c).
Proof.
  intros Hk s'. subst s'. unfold choose_color.
  destruct picked as [c|];
    [|split; [assumption|split; intros c' H; discriminate H]].
  destruct (truthy (Some c)) eqn:Et.
  - destruct (String.eqb (upper c) transparency_key) eqn:E.
    + apply String.eqb_eq in E. cbn [win warnings].
      split; [assumption|]. split.
      * intros c' H Hu. split; reflexivity.
      * intros c' H _ Hne. injection H as <-. contradiction.
    + apply String.eqb_neq in E. cbn [win on_win].
      assert (Hv : veil_color
                     (if valid_color (upper c)
                      then tks [ConfigureBg (upper c); CanvasBg (upper c)]
                             (set_veil_color (upper c) (win s))
                      else set_veil_color (upper c) (win s)) = upper c)
        by (destruct (valid_color (upper c)); reflexivity).
      rewrite Hv. split; [assumption|]. split.
      * intros c' H Hu. injection H as <-. contradiction.
      * intros c' H _ _. injection H as <-. reflexivity.
  - cbn in Et. apply negb_false_iff, String.eqb_eq in Et. subst c.
    split; [assumption|]. split.
    + intros c' H Hu. injection H as <-. discriminate Hu.
    + intros c' H Hne. injection H as <-. contradiction.
Qed.

Lemma choose_color_avoids_key_witness :
  win (choose_color hex_color (Some "#ff00ff"%string) fresh_session)
  = win fresh_session /\
  veil_color (win (choose_color hex_color (Some "#1a2b3c"%string)
                     fresh_session)) = upper "#1a2b3c".
Proof.
  assert (Hk : veil_color (win fresh_session) <> transparency_key)
    by (vm_compute; discriminate).
  split.
  - pose proof (choose_color_avoids_key hex_color (Some "#ff00ff"%string)
                  fresh_session Hk) as H.
    cbv zeta in H. destruct H as (_ & H & _).
    exact (proj1 (H "#ff00ff"%string eq_refl eq_refl)).
  - pose proof (choose_color_avoids_key hex_color (Some "#1a2b3c"%string)
                  fresh_session Hk) as H.
    cbv zeta in H. destruct H as (_ & _ & H).
    apply (H "#1a2b3c"%string eq_refl).
    + discriminate.
    + vm_compute. discriminate.
Defined.

(** ** Loading, in general *)

(** The [try] block on an object whose settings, where present, have the
    types the window stores. *)
Lemma load_body_object (valid_color : string -> bool) (show_message : bool)
  (kv : list (string * json)) (w : Window)
  (c : string) (o p : Q) (b : bool) (items : list json) :
  as_str (get_default kv "veil_color" (JStr "#0C0000")) = Ok c ->
  as_num (get_default kv "veil_opacity" (JNum 1)) = Ok o ->
  as_num (get_default kv "peek_through_opacity" (JNum (55 # 100))) = Ok p ->
  as_bool (get_default kv "show_quick_start_on_startup" (JBool true)) = Ok b ->
  py_seq (get_default kv "focus_areas" (JArr [])) = Ok items ->
  load_body valid_color show_message (Json (JObj kv)) w =
  if valid_color c then
    match
      load_areas items
        (delete_all_focus_areas
           (update_opacity
              (tks [ConfigureBg c; CanvasBg c] (assign_settings c o p b w))))
    with
    | (Ok _, w') =>
      (Ok tt, if show_message then tk (InfoDialog "Loaded") w' else w')
    | (Raise e, w') => (Raise e, w')
    | (OutOfModel, w') => (OutOfModel, w')
    end
  else (Raise TclError, assign_settings c o p b w).
Proof.
  intros Hc Ho Hp Hb Hi.
  unfold load_body, bind, lift, modify, get_default in *.
  cbn [json_load py_get].
  rewrite Hc, Ho, Hp, Hb.
  destruct (valid_color c); [|reflexivity].
  rewrite Hi.
  destruct (load_areas _ _) as [[[]| |] w']; try reflexivity.
  destruct show_message; reflexivity.
Qed.

Lemma load_areas_coords (cs : list Coords) (w : Window) :
  load_areas (map coords_json cs) w =
  (Ok tt,
   set_next_id (next_id w + 2 * List.length cs)
     (set_focus_areas (focus_areas w ++ reloaded_areas (next_id w) cs) w)).
Proof.
  revert w. induction cs as [|c cs IH]; intros w.
  - cbn. rewrite app_nil_r, Nat.add_0_r. destruct w; reflexivity.
  - cbn [map]. rewrite load_areas_cons_rect, IH.
    f_equal. unfold set_next_id, set_focus_areas, append_area. cbn.
    f_equal.
    + rewrite <- app_assoc. reflexivity.
    + lia.
Qed.



Lemma delete_fold_frame (l : list FocusArea) (w : Window) :
  exists cur l',
    fold_left (fun w fa => FocusArea_delete fa w) l w
    = set_focus_areas l' (set_current cur w) /\
    (cur = current w \/ cur = None) /\
    (forall c, current w = Some c -> In c (map rect_id l) -> cur = None).
Proof.
  revert w. induction l as [|fa l IH]; intros w.
  - exists (current w), (focus_areas w). cbn.
    split; [destruct w; reflexivity|]. split; [now left|]. intros c _ [].
  - cbn [fold_left].
    destruct (IH (FocusArea_delete fa w)) as (cur & l' & E & Hc & Hin).
    exists cur, l'. rewrite E. unfold FocusArea_delete in *.
    destruct (current w) as [c0|] eqn:Ec.
    + destruct (Nat.eqb c0 (rect_id fa)) eqn:En.
      * cbn in Hc, Hin |- *. split; [reflexivity|].
        assert (cur = None) by (destruct Hc; assumption).
        split; [now right|]. intros; assumption.
      * cbn in Hc, Hin |- *. rewrite Ec in Hc, Hin.
        split; [reflexivity|]. split; [exact Hc|].
        intros c H [Hf | Hr].
        -- injection H as <-. apply Nat.eqb_neq in En. congruence.
        -- apply (Hin c H Hr).
    + cbn in Hc, Hin |- *. rewrite Ec in Hc, Hin.
      split; [reflexivity|]. split; [exact Hc|]. intros c H. discriminate H.
Qed.

Lemma delete_all_frame (w : Window) :
  exists cur,
    delete_all_focus_areas w = set_focus_areas [] (set_current cur w) /\
    (cur = current w \/ cur = None) /\
    ((forall c, current w = Some c ->
                In c (map rect_id (focus_areas w))) -> cur = None).
Proof.
  unfold delete_all_focus_areas.
  destruct (delete_fold_frame (focus_areas w) w) as (cur & l' & E & Hc & Hin).
  exists cur. rewrite E. split; [reflexivity|]. split; [exact Hc|].
  intros H. destruct (current w) as [c|] eqn:Ec.
  - apply (Hin c eq_refl). apply H. reflexivity.
  - destruct Hc; assumption.
Qed.

Lemma update_opacity_frame (w : Window) :
  exists r, update_opacity w
            = set_root r (set_last_user_opacity (veil_opacity w) w) /\
            alpha r = if negb (is_peeking w)
                         && negb (is_transparent_for_editing w)
                      then veil_opacity w else alpha (root w).
Proof.
  unfold update_opacity. cbn.
  destruct (negb (is_peeking w) && negb (is_transparent_for_editing w)).
  - eexists. split; reflexivity.
  - exists (root w). split; [destruct w; reflexivity | reflexivity].
Qed.

(** Loading an object whose settings are well typed and whose
    "focus_areas" are lists of four numbers, when Tk accepts the colour. *)
Lemma load_config_object (valid_color : string -> bool) (show_message : bool)
  (kv : list (string * json)) (w : Window)
  (c : string) (o p : Q) (b : bool) (cs : list Coords) :
  config_file w = Some (Json (JObj kv)) ->
  as_str (get_default kv "veil_color" (JStr "#0C0000")) = Ok c ->
  as_num (get_default kv "veil_opacity" (JNum 1)) = Ok o ->
  as_num (get_default kv "peek_through_opacity" (JNum (55 # 100))) = Ok p ->
  as_bool (get_default kv "show_quick_start_on_startup" (JBool true)) = Ok b ->
  (exists items, py_seq (get_default kv "focus_areas" (JArr [])) = Ok items /\
                 forall w', load_areas items w'
                            = load_areas (map coords_json cs) w') ->
  valid_color c = true ->
  exists cur r,
    (cur = current w \/ cur = None) /\
    ((forall x, current w = Some x ->
                In x (map rect_id (focus_areas w))) -> cur = None) /\
    alpha r = (if negb (is_peeking w) && negb (is_transparent_for_editing w)
               then o else alpha (root w)) /\
    load_config valid_color show_message w =
    (set_root r
       (set_next_id (next_id w + 2 * List.length cs)
          (set_focus_areas (reloaded_areas (next_id w) cs)
             (set_current cur
                (set_last_user_opacity o (assign_settings c o p b w))))),
     Loaded).
Proof.
  intros Hf Hc Ho Hp Hb (items & Hi & Hitems) Hv.
  unfold load_config. rewrite Hf.
  rewrite (load_body_object valid_color show_message kv w c o p b items
             Hc Ho Hp Hb Hi), Hv, Hitems, load_areas_coords.
  set (w0 := tks [ConfigureBg c; CanvasBg c] (assign_settings c o p b w)).
  destruct (update_opacity_frame w0) as (r & Er & Ha). rewrite Er.
  destruct (delete_all_frame
              (set_root r (set_last_user_opacity (veil_opacity w0) w0)))
    as (cur & Ed & Hcur & Hlive).
  rewrite Ed. clear Ed Er. subst w0.
  exists cur, (if show_message then tk_apply (InfoDialog "Loaded") r else r).
  clear Hf Hc Ho Hp Hb Hi Hitems Hv.
  destruct w. unfold assign_settings.
  split; [exact Hcur|]. split; [exact Hlive|].
  split; [destruct show_message; exact Ha|].
  destruct show_message; reflexivity.
Qed.



Lemma load_areas_saved_coords (fas : list FocusArea) (w : Window) :
  load_areas (map (fun fa => coords_json (get_coords fa)) fas) w
  = load_areas (map coords_json (map rect fas)) w.
Proof. rewrite map_map. reflexivity. Qed.

(** Loading what [save_config] wrote for [w0], when Tk accepts the colour
    of [w0]. *)
Lemma load_config_saved (valid_color : string -> bool) (show_message : bool)
  (w0 w : Window) :
  config_file w = Some (Json (config_of w0)) ->
  valid_color (veil_color w0) = true ->
  exists cur r,
    (cur = current w \/ cur = None) /\
    ((forall x, current w = Some x ->
                In x (map rect_id (focus_areas w))) -> cur = None) /\
    alpha r = (if negb (is_peeking w) && negb (is_transparent_for_editing w)
               then veil_opacity w0 else alpha (root w)) /\
    load_config valid_color show_message w =
    (set_root r
       (set_next_id (next_id w + 2 * List.length (map rect (focus_areas w0)))
          (set_focus_areas
             (reloaded_areas (next_id w) (map rect (focus_areas w0)))
             (set_current cur
                (set_last_user_opacity (veil_opacity w0)
                   (assign_settings (veil_color w0) (veil_opacity w0)
                      (peek_through_opacity w0)
                      (show_quick_start_on_startup w0) w))))),
     Loaded).
Proof.
  intros Hf Hv.
  apply (load_config_object valid_color show_message _ w _ _ _ _ _ Hf);
    try reflexivity; [|exact Hv].
  eexists. split; [reflexivity|]. intros w'. apply load_areas_saved_coords.
Qed.

(** ** Saving in one window, loading in another *)






(** ** The invariant *)

Ltac conj_tauto := repeat (split; [tauto|]).

Ltac destruct_ifs :=
  repeat match goal with
         | |- context [if ?c then _ else _] => destruct c
         end.

Lemma Inv_core (w w' : Window) : core w' = core w -> Inv w -> Inv w'.
Proof.
  unfold core, Inv, settings_ok. intros H.
  injection H as -> -> -> -> -> -> -> ->. exact (fun x => x).
Qed.

Lemma core_tk c w : core (tk c w) = core w.
Proof. reflexivity. Qed.

Lemma core_update_opacity w : core (update_opacity w) = core w.
Proof. unfold update_opacity. destruct_ifs; reflexivity. Qed.

Lemma core_set_transparent_for_editing b w :
  core (set_transparent_for_editing b w) = core w.
Proof.
  unfold set_transparent_for_editing, update_opacity.
  destruct b; cbn [negb]; destruct_ifs; reflexivity.
Qed.

Lemma core_on_canvas_press o x y w : core (on_canvas_press o x y w) = core w.
Proof.
  unfold on_canvas_press. destruct o; [reflexivity|].
  rewrite core_set_transparent_for_editing. reflexivity.
Qed.

Lemma core_on_shift_press w : core (on_shift_press w) = core w.
Proof. unfold on_shift_press. destruct_ifs; reflexivity. Qed.

Lemma core_on_shift_release w : core (on_shift_release w) = core w.
Proof. unfold on_shift_release. destruct_ifs; reflexivity. Qed.

Lemma core_on_pause_shortcut w : core (on_pause_shortcut w) = core w.
Proof. unfold on_pause_shortcut. destruct_ifs; reflexivity. Qed.

Lemma core_toggle_pause w : core (toggle_pause w) = core w.
Proof. unfold toggle_pause. destruct_ifs; reflexivity. Qed.

Lemma core_run_after w : core (run_after w) = core w.
Proof.
  unfold run_after. destruct (after_queue w) as [|[] q]; [reflexivity|].
  rewrite core_toggle_pause. reflexivity.
Qed.

Lemma ids_ok_mono (n n' : nat) (l : list FocusArea) :
  (n <= n')%nat -> Forall (ids_ok n) l -> Forall (ids_ok n') l.
Proof.
  intros Hn. apply Forall_impl. intros fa (H1 & H2 & H3).
  repeat split; try assumption. lia.
Qed.

Lemma NoDup_app_fresh (n : nat) (l : list FocusArea) (fa : FocusArea) :
  rect_id fa = n -> Forall (ids_ok n) l ->
  NoDup (map rect_id l) -> NoDup (map rect_id (l ++ [fa])).
Proof.
  intros Hid Hall Hnd. rewrite map_app. cbn [map].
  apply NoDup_app; [exact Hnd | |].
  - constructor; [intros []|constructor].
  - intros x Hx [<-|[]]. apply in_map_iff in Hx.
    destruct Hx as (fb & Hfb & Hin).
    rewrite Forall_forall in Hall. destruct (Hall fb Hin) as (_ & _ & Hlt).
    lia.
Qed.

(** Appending a freshly created area. *)
Lemma Inv_append (w : Window) (x y wd ht : Q) :
  Inv w -> MIN_SIZE <= wd -> MIN_SIZE <= ht ->
  Inv (set_drawing_rect None
         (set_focus_areas
            (focus_areas w
             ++ [FocusArea_init (next_id w) (S (next_id w)) x y wd ht])
            (set_next_id (S (S (next_id w))) w))).
Proof.
  intros (Hnd & Hids & Hbig & Hcur & Hset & Hfile & Hn & Hd) Hw Hh.
  unfold Inv, settings_ok in *. cbn.
  split; [apply (NoDup_app_fresh (next_id w)); auto|].
  split.
  { apply Forall_app. split.
    - apply (ids_ok_mono (next_id w)); [lia|assumption].
    - constructor; [|constructor]. unfold ids_ok. cbn. lia. }
  split.
  { apply Forall_app. split; [assumption|].
    constructor; [|constructor]. unfold big_enough, width, height. cbn.
    split; lra. }
  split.
  { intros c Hc. rewrite map_app. apply in_or_app. left. auto. }
  conj_tauto. split; [lia|].
  intros d H. discriminate H.
Qed.

Lemma Inv_on_canvas_drag x y w : Inv w -> Inv (on_canvas_drag x y w).
Proof.
  intros H. unfold on_canvas_drag. destruct (draw_idle w); [exact H|].
  destruct H as (Hnd & Hids & Hbig & Hcur & Hset & Hfile & Hn & Hd).
  unfold Inv, settings_ok in *. cbn.
  split; [tauto|].
  split; [apply (ids_ok_mono (next_id w)); [lia|assumption]|].
  conj_tauto.
  split; [lia|].
  intros d E. injection E as <-. exact Hn.
Qed.

Lemma Inv_on_canvas_release x y w : Inv w -> Inv (on_canvas_release x y w).
Proof.
  intros H. unfold on_canvas_release. destruct (draw_idle w); [exact H|].
  eapply Inv_core; [apply core_set_transparent_for_editing|].
  destruct (drawing_rect w) as [d|];
    [|eapply Inv_core; [|exact H]; reflexivity].
  match goal with
  | |- context [if ?a && ?b then _ else _] =>
    destruct a eqn:Ea; [destruct b eqn:Eb|]; cbn [andb]
  end.
  - apply Qle_bool_iff in Ea. apply Qle_bool_iff in Eb.
    refine (Inv_core _ _ _ (Inv_append w _ _ _ _ H Ea Eb)). reflexivity.
  - destruct H as (Hnd & Hids & Hbig & Hcur & Hset & Hfile & Hn & Hd).
    unfold Inv, settings_ok in *. cbn.
    conj_tauto.
    intros d' E. discriminate E.
  - destruct H as (Hnd & Hids & Hbig & Hcur & Hset & Hfile & Hn & Hd).
    unfold Inv, settings_ok in *. cbn.
    conj_tauto.
    intros d' E. discriminate E.
Qed.

Lemma Inv_set_veil_opacity v w :
  in_range v -> Inv w -> Inv (set_veil_opacity v w).
Proof.
  intros Hv (Hnd & Hids & Hbig & Hcur & Hset & Hfile & Hn & Hd).
  unfold Inv, settings_ok in *. cbn. tauto.
Qed.

Lemma Inv_set_peek_through_opacity v w :
  in_range v -> Inv w -> Inv (set_peek_through_opacity v w).
Proof.
  intros Hv (Hnd & Hids & Hbig & Hcur & Hset & Hfile & Hn & Hd).
  unfold Inv, settings_ok in *. cbn. tauto.
Qed.

Lemma Inv_set_veil_color c w :
  c <> transparency_key -> Inv w -> Inv (set_veil_color c w).
Proof.
  intros Hv (Hnd & Hids & Hbig & Hcur & Hset & Hfile & Hn & Hd).
  unfold Inv, settings_ok in *. cbn. tauto.
Qed.

Lemma wheel_in_range (d : Z) (w : Window) :
  in_range (veil_opacity w) ->
  in_range (if Qlt_bool 0 (inject_Z d / 120)
            then py_min 1 (veil_opacity w + (1 # 100))
            else py_max (1 # 100) (veil_opacity w - (1 # 100))).
Proof.
  intros [Hlo Hhi]. unfold in_range, py_min, py_max.
  destruct (Qlt_bool 0 (inject_Z d / 120)).
  - destruct (Qlt_bool (veil_opacity w + (1 # 100)) 1) eqn:E.
    + apply Qlt_bool_iff in E. lra.
    + lra.
  - destruct (Qlt_bool (1 # 100) (veil_opacity w - (1 # 100))) eqn:E.
    + apply Qlt_bool_iff in E. lra.
    + lra.
Qed.

Lemma Inv_on_mousewheel d w : Inv w -> Inv (on_mousewheel d w).
Proof.
  intros H. unfold on_mousewheel.
  eapply Inv_core; [apply core_update_opacity|].
  pose proof (wheel_in_range d w (proj1 (proj2 (proj1 (proj2 (proj2 (proj2
                (proj2 H))))))) ) as Hr.
  destruct (Qlt_bool 0 (inject_Z d / 120));
    apply Inv_set_veil_opacity; assumption.
Qed.

Lemma Inv_change_opacity delta w : Inv w -> Inv (change_opacity delta w).
Proof.
  intros H. unfold change_opacity.
  eapply Inv_core;
    [|apply (Inv_set_veil_opacity
               (py_max (1 # 100) (py_min 1 (veil_opacity w + delta))) w
               (clamp_in_range _) H)].
  cbn. destruct_ifs; reflexivity.
Qed.

Lemma Inv_change_peek_through_opacity delta w :
  Inv w -> Inv (change_peek_through_opacity delta w).
Proof.
  intros H. unfold change_peek_through_opacity.
  eapply Inv_core;
    [|apply (Inv_set_peek_through_opacity
               (py_max (1 # 100) (py_min 1 (peek_through_opacity w + delta)))
               w (clamp_in_range _) H)].
  cbn. destruct_ifs; reflexivity.
Qed.

Lemma Inv_set_opacity_dialog user w : Inv w -> Inv (set_opacity_dialog user w).
Proof.
  intros H. unfold set_opacity_dialog.
  destruct (show_input_dialog 1 100 user) as [v|] eqn:E; [|exact H].
  destruct (show_input_dialog_bounds _ _ _ _ E) as [Hb _].
  eapply Inv_core;
    [|apply (Inv_set_veil_opacity (inject_Z v / 100) w
               (percent_in_range v Hb) H)].
  cbn. destruct_ifs; reflexivity.
Qed.

Lemma Inv_set_peek_through_opacity_dialog user w :
  Inv w -> Inv (set_peek_through_opacity_dialog user w).
Proof.
  intros H. unfold set_peek_through_opacity_dialog.
  destruct (show_input_dialog 1 100 user) as [v|] eqn:E; [|exact H].
  destruct (show_input_dialog_bounds _ _ _ _ E) as [Hb _].
  eapply Inv_core;
    [|apply (Inv_set_peek_through_opacity (inject_Z v / 100) w
               (percent_in_range v Hb) H)].
  cbn. destruct_ifs; reflexivity.
Qed.

Lemma Inv_reset_to_black w : Inv w -> Inv (reset_to_black w).
Proof.
  intros H. unfold reset_to_black.
  eapply Inv_core; [apply core_update_opacity|].
  eapply Inv_core;
    [|apply (Inv_set_veil_opacity 1 _ ltac:(split; discriminate)
               (Inv_set_veil_color "#000000" w ltac:(discriminate) H))].
  reflexivity.
Qed.

Lemma Inv_save_config b w : Inv w -> Inv (save_config b w).
Proof.
  intros H. unfold save_config.
  destruct b; [|eapply Inv_core; [|exact H]; reflexivity].
  destruct H as (Hnd & Hids & Hbig & Hcur & Hset & Hfile & Hn & Hd).
  unfold Inv, settings_ok in *. cbn.
  conj_tauto. split; [|tauto].
  right. exists w. unfold settings_ok. tauto.
Qed.

Lemma Inv_set_show_quick_start b w :
  Inv w -> Inv (set_show_quick_start_on_startup b w).
Proof. apply Inv_core. reflexivity. Qed.

Lemma reloaded_areas_ids (n : nat) (cs : list Coords) :
  Forall (fun fa => (n <= rect_id fa)%nat /\
                    move_handle_id fa = S (rect_id fa) /\
                    (S (rect_id fa) < n + 2 * List.length cs)%nat)
         (reloaded_areas n cs).
Proof.
  revert n. induction cs as [|c cs IH]; intros n; cbn [reloaded_areas];
    constructor.
  - cbn. lia.
  - eapply Forall_impl; [|apply IH]. cbn. intros fa (H1 & H2 & H3).
    repeat split; try assumption; lia.
Qed.

Lemma reloaded_areas_NoDup (n : nat) (cs : list Coords) :
  NoDup (map rect_id (reloaded_areas n cs)).
Proof.
  revert n. induction cs as [|c cs IH]; intros n; cbn; constructor.
  - intros Hin. apply in_map_iff in Hin. destruct Hin as (fa & Hid & Hfa).
    pose proof (reloaded_areas_ids (S (S n)) cs) as Hall.
    rewrite Forall_forall in Hall. destruct (Hall fa Hfa) as (Hge & _).
    lia.
  - apply IH.
Qed.

Lemma reloaded_areas_big (n : nat) (cs : list Coords) :
  Forall big_enough cs ->
  Forall (fun fa => big_enough (rect fa)) (reloaded_areas n cs).
Proof.
  revert n. induction cs as [|c cs IH]; intros n H; cbn; constructor.
  - inversion H as [|? ? [Hw Hh] _]; subst.
    unfold big_enough, width, height in *. cbn. split; lra.
  - apply IH. inversion H; assumption.
Qed.

Lemma Inv_load_config (valid_color : string -> bool) (sm : bool) (w : Window) :
  Inv w -> Inv (fst (load_config valid_color sm w)).
Proof.
  intros H.
  pose proof H as (Hnd & Hids & Hbig & Hcur & Hset & Hfile & Hn & Hd).
  destruct Hfile as [Hnone | (w0 & Hf & Hs0 & Hb0)].
  - unfold load_config. rewrite Hnone. exact H.
  - destruct (valid_color (veil_color w0)) eqn:Hv.
    + destruct (load_config_saved valid_color sm w0 w Hf Hv)
        as (cur & r & _ & Hlive & _ & E).
      rewrite E. cbn [fst]. specialize (Hlive Hcur). subst cur.
      unfold Inv, settings_ok, assign_settings in *. cbn.
      split; [apply reloaded_areas_NoDup|].
      split.
      { eapply Forall_impl; [|apply reloaded_areas_ids].
        cbn. intros fa (H1 & H2 & H3). unfold ids_ok. lia. }
      split.
      { apply reloaded_areas_big. apply Forall_map. exact Hb0. }
      split; [intros c Hc; discriminate Hc|].
      split; [exact Hs0|].
      split; [right; exists w0; rewrite Hf; unfold settings_ok; tauto|].
      split; [lia|exact Hd].
    + unfold load_config. rewrite Hf, load_body_saved, Hv. cbn [fst].
      unfold Inv, settings_ok in *. cbn.
      conj_tauto. tauto.
Qed.

Lemma remove_area_incl (rid : nat) (l : list FocusArea) (fa : FocusArea) :
  In fa (remove_area rid l) -> In fa l.
Proof.
  induction l as [|fb l IH]; cbn; [tauto|].
  destruct (Nat.eqb (rect_id fb) rid); cbn; tauto.
Qed.

Lemma remove_area_ids_incl (rid c : nat) (l : list FocusArea) :
  In c (map rect_id (remove_area rid l)) -> In c (map rect_id l).
Proof.
  intros H. apply in_map_iff in H. destruct H as (fa & <- & Hin).
  apply in_map. eapply remove_area_incl. exact Hin.
Qed.

Lemma remove_area_keeps (rid c : nat) (l : list FocusArea) :
  c <> rid -> In c (map rect_id l) -> In c (map rect_id (remove_area rid l)).
Proof.
  intros Hne. induction l as [|fb l IH]; cbn; [tauto|].
  destruct (Nat.eqb (rect_id fb) rid) eqn:E; cbn.
  - apply Nat.eqb_eq in E. intros [H | H]; [congruence|exact H].
  - intros [H | H]; [now left|right; auto].
Qed.

Lemma remove_area_NoDup (rid : nat) (l : list FocusArea) :
  NoDup (map rect_id l) -> NoDup (map rect_id (remove_area rid l)).
Proof.
  induction l as [|fb l IH]; cbn; [tauto|].
  intros H. inversion H as [|? ? Hnotin Hnd]; subst.
  destruct (Nat.eqb (rect_id fb) rid); [exact Hnd|].
  cbn. constructor; [|auto].
  intros Hin. apply Hnotin. eapply remove_area_ids_incl. exact Hin.
Qed.

Lemma remove_area_gone (rid : nat) (l : list FocusArea) :
  NoDup (map rect_id l) -> ~ In rid (map rect_id (remove_area rid l)).
Proof.
  induction l as [|fb l IH]; cbn; [tauto|].
  intros H. inversion H as [|? ? Hnotin Hnd]; subst.
  destruct (Nat.eqb (rect_id fb) rid) eqn:E.
  - apply Nat.eqb_eq in E. subst rid. exact Hnotin.
  - apply Nat.eqb_neq in E. cbn. intros [Hx | Hx]; [congruence|].
    exact (IH Hnd Hx).
Qed.

Lemma Inv_FocusArea_delete fa w : Inv w -> Inv (FocusArea_delete fa w).
Proof.
  intros (Hnd & Hids & Hbig & Hcur & Hset & Hfile & Hn & Hd).
  assert (Hsub : forall P, Forall P (focus_areas w) ->
                           Forall P (remove_area (rect_id fa) (focus_areas w))).
  { intros P HP. rewrite Forall_forall in *. intros x Hx.
    apply HP. eapply remove_area_incl. exact Hx. }
  unfold FocusArea_delete.
  destruct (current w) as [c|] eqn:Ec.
  - destruct (Nat.eqb c (rect_id fa)) eqn:E.
    + unfold Inv, settings_ok in *. cbn.
      split; [apply remove_area_NoDup; assumption|].
      split; [auto|]. split; [auto|].
      split; [intros x Hx; discriminate Hx|]. tauto.
    + apply Nat.eqb_neq in E. unfold Inv, settings_ok in *. cbn.
      rewrite Ec.
      split; [apply remove_area_NoDup; assumption|].
      split; [auto|]. split; [auto|].
      split.
      { intros x Hx. injection Hx as <-.
        apply remove_area_keeps; [exact E|]. apply Hcur. reflexivity. }
      tauto.
  - unfold Inv, settings_ok in *. cbn. rewrite Ec.
    split; [apply remove_area_NoDup; assumption|].
    split; [auto|]. split; [auto|].
    split; [intros x Hx; discriminate Hx|]. tauto.
Qed.

Lemma Inv_set_current_None w : Inv w -> Inv (set_current None w).
Proof.
  intros (Hnd & Hids & Hbig & Hcur & Hset & Hfile & Hn & Hd).
  unfold Inv, settings_ok in *. cbn.
  conj_tauto.
  split; [intros x Hx; discriminate Hx|]. tauto.
Qed.

Lemma Inv_delete_all_focus_areas w : Inv w -> Inv (delete_all_focus_areas w).
Proof.
  intros H.
  pose proof H as (Hnd & Hids & Hbig & Hcur & Hset & Hfile & Hn & Hd).
  destruct (delete_all_frame w) as (cur & E & _ & Hlive).
  rewrite E. specialize (Hlive Hcur). subst cur.
  unfold Inv, settings_ok in *. cbn.
  split; [constructor|]. split; [constructor|]. split; [constructor|].
  split; [intros x Hx; discriminate Hx|]. tauto.
Qed.

Lemma find_area_some (rid : nat) (w : Window) (fa : FocusArea) :
  find_area rid w = Some fa -> In fa (focus_areas w) /\ rect_id fa = rid.
Proof.
  unfold find_area. intros H. apply find_some in H. destruct H as [Hin E].
  apply Nat.eqb_eq in E. split; assumption.
Qed.

Lemma Inv_delete_current_focus_area w :
  Inv w -> Inv (delete_current_focus_area w).
Proof.
  intros H. unfold delete_current_focus_area.
  destruct (current w) as [c|]; [|exact H].
  destruct (find_area c w) as [fa|].
  - apply Inv_FocusArea_delete. exact H.
  - apply Inv_set_current_None. exact H.
Qed.

Lemma Inv_on_leave fa w : Inv w -> Inv (on_leave fa w).
Proof.
  intros H. unfold on_leave.
  destruct (current w) as [c|]; [|exact H].
  destruct (Nat.eqb c (rect_id fa)); [|exact H].
  apply Inv_set_current_None. exact H.
Qed.

Lemma replace_area_ids (fa' : FocusArea) (l : list FocusArea) :
  map rect_id (replace_area fa' l) = map rect_id l.
Proof.
  induction l as [|fb l IH]; cbn; [reflexivity|].
  destruct (Nat.eqb (rect_id fb) (rect_id fa')) eqn:E; cbn.
  - apply Nat.eqb_eq in E. congruence.
  - rewrite IH. reflexivity.
Qed.

Lemma replace_area_Forall (P : FocusArea -> Prop) (fa' : FocusArea)
  (l : list FocusArea) :
  P fa' -> Forall P l -> Forall P (replace_area fa' l).
Proof.
  intros HP. induction l as [|fb l IH]; cbn; [constructor|].
  intros H. inversion H; subst.
  destruct (Nat.eqb (rect_id fb) (rect_id fa')); constructor; auto.
Qed.

Lemma Inv_put_area fa' w :
  ids_ok (next_id w) fa' -> big_enough (rect fa') ->
  Inv w -> Inv (put_area fa' w).
Proof.
  intros Hi Hb (Hnd & Hids & Hbig & Hcur & Hset & Hfile & Hn & Hd).
  unfold Inv, settings_ok, put_area in *. cbn.
  rewrite replace_area_ids.
  split; [tauto|].
  split; [apply replace_area_Forall; assumption|].
  split; [apply (replace_area_Forall (fun fa => big_enough (rect fa)));
          assumption|].
  tauto.
Qed.

Lemma on_drag_ids (fa : FocusArea) (x y : Z) :
  rect_id (on_drag fa x y) = rect_id fa /\
  move_handle_id (on_drag fa x y) = move_handle_id fa.
Proof.
  unfold on_drag. destruct (is_dragging fa); cbn [negb]; [|tauto].
  destruct (rect fa) as [x1 y1 x2 y2].
  destruct (resize_mode fa) as [m|]; [|tauto].
  destruct_ifs; tauto.
Qed.

Lemma on_handle_drag_ids (fa : FocusArea) (x y : Z) :
  rect_id (on_handle_drag fa x y) = rect_id fa /\
  move_handle_id (on_handle_drag fa x y) = move_handle_id fa /\
  (big_enough (rect fa) -> big_enough (rect (on_handle_drag fa x y))).
Proof.
  unfold on_handle_drag. destruct (is_dragging fa); [|tauto].
  cbn. split; [reflexivity|]. split; [reflexivity|].
  apply big_enough_canvas_move.
Qed.

Lemma on_drag_big_enough (fa : FocusArea) (x y : Z) :
  big_enough (rect fa) -> big_enough (rect (on_drag fa x y)).
Proof.
  intros Hbig. destruct (on_drag_ids fa x y) as [_ _].
  unfold on_drag.
  destruct (is_dragging fa); cbn [negb]; [|exact Hbig].
  destruct (rect fa) as [x1 y1 x2 y2] eqn:Hr.
  destruct (resize_mode fa) as [m|]; [|rewrite Hr; exact Hbig].
  destruct (String.eqb m "move").
  { rewrite rect_set_drag_start. cbn [rect set_rect].
    apply big_enough_canvas_move. exact Hbig. }
  destruct (truthy (Some m)); [|rewrite Hr; exact Hbig].
  match goal with
  | |- context [if ?a && ?b then _ else _] =>
    destruct a eqn:Ea; [destruct b eqn:Eb|]; cbn [andb];
      try (rewrite Hr; exact Hbig)
  end.
  rewrite rect_set_drag_start, rect_update_handle_position.
  apply Qle_bool_iff in Ea. apply Qle_bool_iff in Eb.
  split; assumption.
Qed.

Lemma Inv_area_event ev fa w :
  In fa (focus_areas w) -> Inv w -> Inv (area_event ev fa w).
Proof.
  intros Hin H.
  pose proof H as (Hnd & Hids & Hbig & Hcur & Hset & Hfile & Hn & Hd).
  rewrite Forall_forall in Hids, Hbig.
  pose proof (Hids fa Hin) as (I1 & I2 & I3). pose proof (Hbig fa Hin) as Hb.
  destruct ev; cbn [area_event].
  - apply Inv_put_area; [repeat split|exact Hb|exact H]; assumption.
  - destruct (on_drag_ids fa x y) as [E1 E2].
    apply Inv_put_area; [|apply on_drag_big_enough; exact Hb|exact H].
    unfold ids_ok. rewrite E1, E2. repeat split; assumption.
  - apply Inv_put_area; [repeat split|exact Hb|exact H]; assumption.
  - apply Inv_on_leave. exact H.
  - assert (H' : Inv (put_area (on_handle_press fa x y) w))
      by (apply Inv_put_area; [repeat split|exact Hb|exact H]; assumption).
    destruct H' as (Hnd' & Hids' & Hbig' & Hcur' & Hrest).
    unfold Inv. cbn. cbn in Hnd', Hids', Hbig', Hrest.
    split; [exact Hnd'|]. split; [exact Hids'|]. split; [exact Hbig'|].
    split; [|exact Hrest].
    intros c Hc. injection Hc as <-. rewrite replace_area_ids.
    apply in_map. exact Hin.
  - destruct (on_handle_drag_ids fa x y) as (E1 & E2 & E3).
    apply Inv_put_area; [|apply E3; exact Hb|exact H].
    unfold ids_ok. rewrite E1, E2. repeat split; assumption.
  - apply Inv_put_area; [repeat split|exact Hb|exact H]; assumption.
Qed.

Lemma Inv_step (valid_color : string -> bool) (w : Window) (e : Event) :
  Inv w -> Inv (step valid_color w e).
Proof.
  intros H. destruct e; cbn [step].
  - eapply Inv_core; [apply core_on_canvas_press|exact H].
  - apply Inv_on_canvas_drag. exact H.
  - apply Inv_on_canvas_release. exact H.
  - apply Inv_on_mousewheel. exact H.
  - eapply Inv_core; [apply core_on_shift_press|exact H].
  - eapply Inv_core; [apply core_on_shift_release|exact H].
  - eapply Inv_core; [apply core_on_pause_shortcut|exact H].
  - eapply Inv_core; [apply core_toggle_pause|exact H].
  - eapply Inv_core; [apply core_toggle_pause|exact H].
  - eapply Inv_core; [|exact H]. reflexivity.
  - eapply Inv_core; [|exact H]. reflexivity.
  - eapply Inv_core; [apply core_run_after|exact H].
  - apply Inv_save_config. exact H.
  - apply Inv_load_config. exact H.
  - apply Inv_delete_all_focus_areas. exact H.
Qed.

Lemma Inv_choose_color (valid_color : string -> bool) picked s :
  Inv (win s) -> Inv (win (choose_color valid_color picked s)).
Proof.
  intros H. unfold choose_color.
  destruct picked as [c|]; [|exact H].
  destruct (truthy (Some c)); [|exact H].
  destruct (String.eqb (upper c) transparency_key) eqn:E; [exact H|].
  apply String.eqb_neq in E. cbn [win on_win].
  eapply Inv_core; [|apply (Inv_set_veil_color (upper c) (win s) E H)].
  destruct (valid_color (upper c)); reflexivity.
Qed.

Lemma Inv_act (valid_color : string -> bool) (s : Session) (a : Action) :
  Inv (win s) -> Inv (win (act valid_color s a)).
Proof.
  intros H. destruct a; cbn [act].
  - apply Inv_step. exact H.
  - destruct (find_area rid (win s)) as [fa|] eqn:E; [|exact H].
    apply find_area_some in E. apply Inv_area_event; [apply E|exact H].
  - destruct (find_area rid (win s)) as [fa|] eqn:E; [|exact H].
    apply Inv_FocusArea_delete. exact H.
  - unfold show_main_menu. destruct (handle_right_clicked s); exact H.
  - apply Inv_delete_current_focus_area. exact H.
  - apply Inv_choose_color. exact H.
  - apply Inv_reset_to_black. exact H.
  - apply Inv_change_opacity. exact H.
  - apply Inv_change_peek_through_opacity. exact H.
  - apply Inv_set_opacity_dialog. exact H.
  - apply Inv_set_peek_through_opacity_dialog. exact H.
  - cbn. eapply Inv_core; [|apply (Inv_save_config write_ok _ H)]. reflexivity.
  - cbn. eapply Inv_core; [|apply (Inv_save_config write_ok _ H)]. reflexivity.
  - cbn. unfold on_checkbox_toggle.
    apply Inv_save_config, Inv_set_show_quick_start. exact H.
Qed.

Lemma Inv_acts (valid_color : string -> bool) (l : list Action) (s : Session) :
  Inv (win s) -> Inv (win (acts valid_color s l)).
Proof.
  revert s. induction l as [|a l IH]; intros s H; [exact H|].
  cbn [acts fold_left]. apply IH. apply Inv_act. exact H.
Qed.

Lemma Inv_fresh_window : Inv fresh_window.
Proof.
  unfold Inv, settings_ok, in_range.
  split; [constructor|]. split; [constructor|]. split; [constructor|].
  split; [intros c H; vm_compute in H; discriminate H|].
  split; [repeat split; vm_compute; discriminate|].
  split; [left; reflexivity|].
  split; [vm_compute; lia|].
  intros d H. vm_compute in H. discriminate H.
Qed.

(** ** What holds in every state of a session

    The sessions start without a configuration file; the file is only
    written by the program. *)

(** X14: whatever the user does, the focus areas of the window have
    pairwise distinct rectangle ids, each handle oval has the id after its
    rectangle's, and all ids are positive and below the next id of the
    canvas: an id never names two objects. *)
Theorem session_ids_distinct (valid_color : string -> bool)
  (l : list Action) :
  let w := win (acts valid_color fresh_session l) in
  NoDup (map rect_id (focus_areas w)) /\
  Forall (fun fa => (1 <= rect_id fa)%nat /\
                    move_handle_id fa = S (rect_id fa) /\
                    (move_handle_id fa < next_id w)%nat) (focus_areas w).
Proof.
  cbv zeta.
  destruct (Inv_acts valid_color l fresh_session Inv_fresh_window)
    as (Hnd & Hids & _).
  split; [exact Hnd|].
  eapply Forall_impl; [|exact Hids].
  intros fa (H1 & H2 & H3). rewrite H2. repeat split; assumption.
Qed.

(** X15: whatever the user does, [FocusArea.current], when set, names an
    area that is still in the window's list, so the Delete key never acts
    on a deleted area. *)
Theorem session_current_is_live (valid_color : string -> bool)
  (l : list Action) (c : nat) :
  let w := win (acts valid_color fresh_session l) in
  current w = Some c ->
  exists fa, find_area c w = Some fa /\ In fa (focus_areas w) /\
             rect_id fa = c.
Proof.
  cbv zeta. intros Hc.
  destruct (Inv_acts valid_color l fresh_session Inv_fresh_window)
    as (_ & _ & _ & Hcur & _).
  specialize (Hcur c Hc). apply in_map_iff in Hcur.
  destruct Hcur as (fb & Hid & Hin).
  unfold find_area.
  destruct (find (fun fa => Nat.eqb (rect_id fa) c)
                 (focus_areas (win (acts valid_color fresh_session l))))
    as [fa|] eqn:E.
  - exists fa. apply find_some in E. destruct E as [E1 E2].
    apply Nat.eqb_eq in E2. repeat split; assumption.
  - exfalso. apply (find_none _ _ E) in Hin. apply Nat.eqb_neq in Hin.
    contradiction.
Qed.

Lemma session_current_is_live_witness :
  exists fa,
    find_area 2 (win (acts hex_color fresh_session
                        [Win (CanvasPress false 100 100);
                         Win (CanvasDrag 300 250);
                         Win (CanvasRelease 300 250);
                         Area 2 (HandlePress 100 157)])) = Some fa.
Proof.
  destruct (session_current_is_live hex_color
              [Win (CanvasPress false 100 100); Win (CanvasDrag 300 250);
               Win (CanvasRelease 300 250); Area 2 (HandlePress 100 157)]
              2 eq_refl) as (fa & H & _).
  exists fa. exact H.
Defined.

(** X16: whatever the user does (draw, move, resize, delete, save, load),
    every focus area of the window stays at least MIN_SIZE wide and
    high. *)
Theorem session_areas_big_enough (valid_color : string -> bool)
  (l : list Action) :
  Forall (fun fa => MIN_SIZE <= width (rect fa) /\
                    MIN_SIZE <= height (rect fa))
         (focus_areas (win (acts valid_color fresh_session l))).
Proof.
  destruct (Inv_acts valid_color l fresh_session Inv_fresh_window)
    as (_ & _ & Hbig & _).
  exact Hbig.
Qed.

(** X17: whatever the user does, the veil opacity and the peek-through
    opacity stay within [0.01, 1.0] and the veil colour is never the
    transparency key. *)
Theorem session_settings_valid (valid_color : string -> bool)
  (l : list Action) :
  let w := win (acts valid_color fresh_session l) in
  veil_color w <> transparency_key /\
  (1 # 100 <= veil_opacity w /\ veil_opacity w <= 1) /\
  (1 # 100 <= peek_through_opacity w /\ peek_through_opacity w <= 1).
Proof.
  cbv zeta.
  destruct (Inv_acts valid_color l fresh_session Inv_fresh_window)
    as (_ & _ & _ & _ & Hset & _).
  exact Hset.
Qed.

(** ** Deleting an area *)

Lemma remove_replace_area (fa' : FocusArea) (l : list FocusArea) :
  remove_area (rect_id fa') (replace_area fa' l) = remove_area (rect_id fa') l.
Proof.
  induction l as [|fb l IH]; cbn; [reflexivity|].
  destruct (Nat.eqb (rect_id fb) (rect_id fa')) eqn:E; cbn.
  - rewrite Nat.eqb_refl. reflexivity.
  - rewrite E, IH. reflexivity.
Qed.

Lemma find_replace_area (fa' : FocusArea) (l : list FocusArea) :
  In (rect_id fa') (map rect_id l) ->
  find (fun fa => Nat.eqb (rect_id fa) (rect_id fa')) (replace_area fa' l)
  = Some fa'.
Proof.
  induction l as [|fb l IH]; cbn; [tauto|].
  destruct (Nat.eqb (rect_id fb) (rect_id fa')) eqn:E; cbn.
  - rewrite Nat.eqb_refl. reflexivity.
  - rewrite E. intros [H | H]; [|auto].
    apply Nat.eqb_neq in E. congruence.
Qed.

Lemma remove_area_length (rid : nat) (l : list FocusArea) :
  In rid (map rect_id l) ->
  S (List.length (remove_area rid l)) = List.length l.
Proof.
  induction l as [|fb l IH]; cbn; [tauto|].
  destruct (Nat.eqb (rect_id fb) rid) eqn:E; [reflexivity|].
  apply Nat.eqb_neq in E. intros [H | H]; [congruence|].
  cbn. rewrite (IH H). reflexivity.
Qed.

(** X18: a press on the handle of an area followed by the Delete key
    removes that area and no other, and clears [FocusArea.current]; when
    the pointer leaves the rectangle of the area in between, the Delete
    key does nothing. *)
Theorem handle_press_then_delete (w : Window) (rid : nat) (fa : FocusArea)
  (x y : Z) :
  NoDup (map rect_id (focus_areas w)) ->
  find_area rid w = Some fa ->
  let pressed := area_event (HandlePress x y) fa w in
  let w' := delete_current_focus_area pressed in
  current pressed = Some rid /\
  focus_areas w' = remove_area rid (focus_areas w) /\
  S (List.length (focus_areas w')) = List.length (focus_areas w) /\
  ~ In rid (map rect_id (focus_areas w')) /\
  (forall fb, In fb (focus_areas w) -> rect_id fb <> rid ->
              In fb (focus_areas w')) /\
  current w' = None /\
  (forall fa1, find_area rid pressed = Some fa1 ->
     delete_current_focus_area (area_event RectLeave fa1 pressed)
     = area_event RectLeave fa1 pressed).
Proof.
  intros Hnd Hfind pressed w'.
  destruct (find_area_some rid w fa Hfind) as [Hin Hid].
  assert (Hinid : In (rect_id (on_handle_press fa x y))
                     (map rect_id (focus_areas w))).
  { cbn. apply in_map. exact Hin. }
  assert (Hcur : current pressed = Some rid).
  { unfold pressed. cbn. rewrite Hid. reflexivity. }
  assert (Hfp : find_area rid pressed = Some (on_handle_press fa x y)).
  { unfold find_area, pressed. cbn [area_event focus_areas set_current
                                        put_area set_focus_areas].
    rewrite <- Hid. apply (find_replace_area (on_handle_press fa x y)).
    exact Hinid. }
  assert (Hw' : w' = FocusArea_delete (on_handle_press fa x y) pressed).
  { unfold w', delete_current_focus_area. rewrite Hcur, Hfp. reflexivity. }
  assert (Hfa : focus_areas w' = remove_area rid (focus_areas w)).
  { rewrite Hw'. unfold FocusArea_delete. rewrite Hcur.
    cbn [rect_id on_handle_press set_dragging set_drag_start].
    rewrite Hid, Nat.eqb_refl.
    unfold pressed. cbn [area_event focus_areas set_current put_area
                         set_focus_areas].
    rewrite <- Hid.
    apply (remove_replace_area (on_handle_press fa x y)). }
  split; [exact Hcur|]. split; [exact Hfa|].
  split.
  { rewrite Hfa. apply remove_area_length. rewrite <- Hid.
    apply in_map. exact Hin. }
  split; [rewrite Hfa; apply remove_area_gone; exact Hnd|].
  split.
  { intros fb Hfb Hne. rewrite Hfa. clear -Hfb Hne.
    induction (focus_areas w) as [|fc l IH]; [destruct Hfb|].
    cbn. destruct (Nat.eqb (rect_id fc) rid) eqn:E.
    - apply Nat.eqb_eq in E. destruct Hfb as [<- | H]; [congruence|exact H].
    - destruct Hfb as [<- | H]; [now left|right; auto]. }
  split.
  { rewrite Hw'. unfold FocusArea_delete. rewrite Hcur.
    cbn [rect_id on_handle_press set_dragging set_drag_start].
    rewrite Hid, Nat.eqb_refl. reflexivity. }
  intros fa1 Hf1. rewrite Hfp in Hf1. injection Hf1 as <-.
  unfold area_event, on_leave. rewrite Hcur.
  cbn [rect_id on_handle_press set_dragging set_drag_start].
  rewrite Hid, Nat.eqb_refl. reflexivity.
Qed.

Lemma handle_press_then_delete_witness :
  focus_areas (delete_current_focus_area
                 (area_event (HandlePress 100 157)
                    (FocusArea_init 2 3 100 100 200 150) window_with_area))
  = [].
Proof.
  assert (Hnd : NoDup (map rect_id (focus_areas window_with_area)))
    by (vm_compute; repeat constructor; intros []).
  assert (Hfa : find_area 2 window_with_area
                = Some (FocusArea_init 2 3 100 100 200 150))
    by (vm_compute; reflexivity).
  pose proof (handle_press_then_delete window_with_area 2
                (FocusArea_init 2 3 100 100 200 150) 100 157 Hnd Hfa) as H.
  cbv zeta in H. destruct H as (_ & H & _).
  rewrite H. reflexivity.
Defined.

(** X19: a right-click on a handle deletes the area and raises the flag
    [handle_right_clicked]; the next [show_main_menu] posts no menu and
    lowers the flag, the one after that posts the menu again; neither
    touches the window. *)
Theorem handle_right_click_suppresses_menu (valid_color : string -> bool)
  (s : Session) (rid : nat) (fa : FocusArea) :
  find_area rid (win s) = Some fa ->
  let s1 := act valid_color s (HandleRightClick rid) in
  let m1 := show_main_menu s1 in
  let m2 := show_main_menu (snd m1) in
  focus_areas (win s1) = remove_area rid (focus_areas (win s)) /\
  fst m1 = false /\ fst m2 = true /\
  win (snd m1) = win s1 /\ win (snd m2) = win s1 /\
  acts valid_color s [HandleRightClick rid; RightClick; RightClick] = snd m2.
Proof.
  intros Hf. cbv zeta.
  destruct (find_area_some rid (win s) fa Hf) as [_ Hid].
  unfold acts. cbn [fold_left act]. rewrite Hf.
  unfold on_handle_right_click, show_main_menu. cbn.
  unfold FocusArea_delete. rewrite Hid.
  destruct (current (win s)) as [c|]; [destruct (Nat.eqb c rid)|];
    repeat split.
Qed.

Lemma handle_right_click_suppresses_menu_witness :
  fst (show_main_menu
         (act hex_color (mkSession window_with_area false [])
              (HandleRightClick 2))) = false.
Proof.
  assert (Hfa : find_area 2 (win (mkSession window_with_area false []))
                = Some (FocusArea_init 2 3 100 100 200 150))
    by (vm_compute; reflexivity).
  pose proof (handle_right_click_suppresses_menu hex_color
                (mkSession window_with_area false []) 2
                (FocusArea_init 2 3 100 100 200 150) Hfa) as H.
  cbv zeta in H. destruct H as (_ & H & _). exact H.
Defined.

(** ** The tray *)

Lemma toggle_pause_set_after_queue (q : list Callback) (w : Window) :
  toggle_pause (set_after_queue q w) = set_after_queue q (toggle_pause w).
Proof. unfold toggle_pause. cbn. destruct (is_visible w); reflexivity. Qed.

Lemma post_toggles_queue (n : nat) (w : Window) :
  post_toggles n w = set_after_queue (after_queue w ++ repeat CbTogglePause n) w.
Proof.
  unfold post_toggles. induction n as [|n IH].
  - cbn [repeat]. rewrite app_nil_r. destruct w; reflexivity.
  - rewrite Nat.iter_succ, IH. unfold tray_toggle_pause, set_after_queue.
    cbn. f_equal. rewrite <- app_assoc. f_equal.
    symmetry. apply (repeat_cons n CbTogglePause).
Qed.

Lemma run_after_iter (k m : nat) (w : Window) :
  Nat.iter k run_after (set_after_queue (repeat CbTogglePause (k + m)) w)
  = set_after_queue (repeat CbTogglePause m) (Nat.iter k toggle_pause w).
Proof.
  revert m. induction k as [|k IH]; intros m; [reflexivity|].
  rewrite !Nat.iter_succ. replace (S k + m)%nat with (k + S m)%nat by lia.
  rewrite IH. set (X := Nat.iter k toggle_pause w).
  change (toggle_pause (set_after_queue (repeat CbTogglePause m) X)
          = set_after_queue (repeat CbTogglePause m) (toggle_pause X)).
  apply toggle_pause_set_after_queue.
Qed.

Lemma toggle_pause_iter_fields (n : nat) (w : Window) :
  after_queue (Nat.iter n toggle_pause w) = after_queue w /\
  is_visible (Nat.iter n toggle_pause w)
  = if Nat.even n then is_visible w else negb (is_visible w).
Proof.
  induction n as [|n [IHq IHv]]; [split; reflexivity|].
  rewrite Nat.iter_succ. split.
  - rewrite <- IHq. unfold toggle_pause. cbn. destruct_ifs; reflexivity.
  - assert (E : forall w0, is_visible (toggle_pause w0) = negb (is_visible w0))
      by (intros w0; unfold toggle_pause; cbn;
          destruct (is_visible w0); reflexivity).
    rewrite E, IHv. rewrite Nat.even_succ, <- Nat.negb_even.
    destruct (Nat.even n), (is_visible w); reflexivity.
Qed.

(** X20: posting tray toggles changes nothing but the queue of pending
    callbacks; once the main loop has run the [n] callbacks posted to an
    empty queue the window is as after [n] calls of [toggle_pause]: the
    queue is empty again and visibility has flipped [n] times. *)
Theorem tray_toggles_run_in_order (n : nat) (w : Window) :
  after_queue w = [] ->
  post_toggles n w = set_after_queue (repeat CbTogglePause n) w /\
  Nat.iter n run_after (post_toggles n w) = Nat.iter n toggle_pause w /\
  after_queue (Nat.iter n run_after (post_toggles n w)) = [] /\
  is_visible (Nat.iter n run_after (post_toggles n w))
  = (if Nat.even n then is_visible w else negb (is_visible w)).
Proof.
  intros Hq.
  assert (Hp : post_toggles n w = set_after_queue (repeat CbTogglePause n) w)
    by (rewrite post_toggles_queue, Hq; reflexivity).
  destruct (toggle_pause_iter_fields n w) as [Fq Fv].
  assert (Hr : Nat.iter n run_after (post_toggles n w)
               = Nat.iter n toggle_pause w).
  { rewrite Hp. replace n with (n + 0)%nat at 2 by lia.
    rewrite run_after_iter. cbn [repeat].
    rewrite <- Hq, <- Fq. destruct (Nat.iter n toggle_pause w); reflexivity. }
  split; [exact Hp|]. split; [exact Hr|].
  rewrite Hr. split; [rewrite Fq; exact Hq | exact Fv].
Qed.

Lemma tray_toggles_run_in_order_witness :
  is_visible (Nat.iter 3 run_after (post_toggles 3 fresh_window)) = false.
Proof.
  apply (tray_toggles_run_in_order 3 fresh_window). reflexivity.
Defined.

(** ** The end of a draw gesture *)

(** X21: a release that ends a draw gesture always leaves the editing-peek
    state, discards the preview and makes the window idle; veilOpacity is
    applied again only when Shift is not held, otherwise the alpha stays
    as it was. *)
Theorem release_ends_gesture (x y : Z) (w : Window) :
  draw_idle w = false ->
  let w' := on_canvas_release x y w in
  draw_idle w' = true /\
  is_transparent_for_editing w' = false /\
  (drawing_rect w <> None -> drawing_rect w' = None) /\
  is_peeking w' = is_peeking w /\
  (is_peeking w = false -> alpha (root w') = veil_opacity w) /\
  (is_peeking w = true -> alpha (root w') = alpha (root w)).
Proof.
  intros Hidle w'. subst w'. unfold on_canvas_release. rewrite Hidle.
  match goal with
  | |- context [set_transparent_for_editing false (set_draw_start _ _ ?X)] =>
    set (w1 := X)
  end.
  assert (H1 : is_peeking w1 = is_peeking w /\
               veil_opacity w1 = veil_opacity w /\
               root w1 = root w /\
               (drawing_rect w <> None -> drawing_rect w1 = None)).
  { unfold w1. destruct (drawing_rect w) as [d|].
    - destruct_ifs; cbn; repeat split.
    - repeat split. intros H; congruence. }
  destruct H1 as (Hp & Hv & Hr & Hd). clearbody w1.
  unfold set_transparent_for_editing, update_opacity. cbn.
  rewrite Hp.
  destruct (is_peeking w); cbn; rewrite ?Hp, ?Hv, ?Hr;
    (split; [reflexivity|]); (split; [reflexivity|]);
    (split; [exact Hd|]); (split; [reflexivity|]);
    split; intros H; try discriminate H; reflexivity.
Qed.

Lemma release_ends_gesture_witness :
  let w := on_shift_press (on_canvas_press false 100 100 fresh_window) in
  is_transparent_for_editing (on_canvas_release 102 103 w) = false /\
  alpha (root (on_canvas_release 102 103 w)) = alpha (root w).
Proof.
  cbv zeta.
  pose proof (release_ends_gesture 102 103
                (on_shift_press (on_canvas_press false 100 100 fresh_window))
                eq_refl) as H.
  cbv zeta in H. destruct H as (_ & H2 & _ & _ & _ & H6).
  split; [exact H2 | apply H6; reflexivity].
Defined.
